(** * Subscription diagnostic settings and the watchlists client

    A shallow embedding of
    [internal/services/monitor/monitor_subscription_diagnostic_setting_resource.go]
    and of the vendored [securityinsight/watchlists.go], with the properties
    of the resource lifecycle (create/update, read, delete), of the composite
    resource ID and of the request validation that the specification states.

    Go strings are byte strings ([string]), Go maps of type
    [map[string]interface{}] are [gmap string value], nilable pointers are
    [option], and a Go function that talks to the remote service or mutates
    the resource data is a computation in the state monad [M] over a [World]
    that records every remote call. A nil-pointer dereference or a failed
    type assertion is the result [Panic]. *)

From Stdlib Require Import ZArith Lia Bool Ascii String.
From stdpp Require Import gmap strings list.

Open Scope string_scope.

Set Warnings "-register-all".

(** ** Go's [strings.Split] for a one-byte separator *)

Module strings.

(** [Split s sep] slices [s] into the substrings separated by [sep]; a string
    with [n] separators yields [n + 1] segments, some possibly empty. *)
Fixpoint Split (s : string) (sep : ascii) : list string :=
  match s with
  | EmptyString => [EmptyString]
  | String c rest =>
      if Ascii.eqb c sep then EmptyString :: Split rest sep
      else match Split rest sep with
           | seg :: segs => String c seg :: segs
           | [] => [String c EmptyString]
           end
  end.

(** Number of occurrences of the byte [sep] in [s]. *)
Fixpoint Count (s : string) (sep : ascii) : nat :=
  match s with
  | EmptyString => 0
  | String c rest => (if Ascii.eqb c sep then 1 else 0) + Count rest sep
  end.

(** [Join segs sep]: the segments with [sep] between them. *)
Fixpoint Join (segs : list string) (sep : ascii) : string :=
  match segs with
  | [] => EmptyString
  | [seg] => seg
  | seg :: segs' => seg ++ String sep (Join segs' sep)
  end.

(** [Contains s sep]: the byte [sep] occurs in [s]. *)
Definition Contains (s : string) (sep : ascii) : bool :=
  negb (Nat.eqb (Count s sep) 0).

End strings.

(** ** Errors and results *)

(** Errors of the remote client: the text of the failure. *)
Definition remote_error := string.

(** The errors the resource functions return, one constructor per
    [fmt.Errorf] (or forwarded error) of the source. *)
Inductive error :=
| ErrCheckingPresence (name subscriptionId : string) (err : remote_error)
| ErrImportAsExists (resourceName id : string)
| ErrNoLogBlock
| ErrNoLogEnabled
| ErrNoDestination
| ErrCreating (name subscriptionId : string) (err : remote_error)
| ErrRemote (err : remote_error)
| ErrCannotReadID (name subscriptionId : string)
| ErrIdSegments (segments : nat)
| ErrRetrieving (name subscriptionId : string) (err : remote_error)
| ErrIdParse (msg : string)
| ErrSettingLog (msg : string)
| ErrDeleting (name subscriptionId : string) (err : remote_error)
| ErrRefresh (err : remote_error)
| ErrTimeout (lastState : string)
| ErrUnexpectedState (state : string)
| ErrWaiting (name subscriptionId : string) (err : error).

Inductive result (A : Type) :=
| Ok (a : A)
| Err (e : error).
Arguments Ok {A} a.
Arguments Err {A} e.

(** ** The data model *)

(** [subscriptiondiagnosticsettings.DiagnosticSettingId]: the composite key. *)
Record DiagnosticSettingId := {
  SubscriptionId : string;
  Name : string
}.

(** [subscriptiondiagnosticsettings.SubscriptionLogSettings]. *)
Record SubscriptionLogSettings := {
  Category : option string;
  CategoryGroup : option string;
  Enabled : bool
}.

(** A dynamically typed value held in a [map[string]interface{}]. *)
Inductive value :=
| VString (s : string)
| VBool (b : bool).

(** The type assertions [x.(string)] and [x.(bool)] on a map entry; a missing
    key reads as the nil interface, on which the assertion panics ([None]). *)
Definition assertString (x : option value) : option string :=
  match x with
  | Some (VString s) => Some s
  | _ => None
  end.

Definition assertBool (x : option value) : option bool :=
  match x with
  | Some (VBool b) => Some b
  | _ => None
  end.

(** ** [ParseMonitorSubscriptionDiagnosticId] *)

Definition ParseMonitorSubscriptionDiagnosticId (monitorId : string)
  : result DiagnosticSettingId :=
  let v := strings.Split monitorId "|" in
  match v with
  | [v0; v1] => Ok {| SubscriptionId := v0; Name := v1 |}
  | _ => Err (ErrIdSegments (length v))
  end.

(** The resource ID that create/update stores:
    [fmt.Sprintf("%s|%s", subscriptionID, name)]. *)
Definition formatResourceId (subscriptionID name : string) : string :=
  subscriptionID ++ "|" ++ name.

(** ** [expandSubscriptionMonitorDiagnosticsSettingsLogs] *)

(** The body of the loop, for one raw entry. *)
Definition expandLogEntry (v : gmap string value)
  : option SubscriptionLogSettings :=
  category ← assertString (v !! "category");
  categoryGroup ← assertString (v !! "category_group");
  enabled ← assertBool (v !! "enabled");
  let output := {| Category := None; CategoryGroup := None; Enabled := enabled |} in
  Some (if negb (String.eqb category "")
        then {| Category := Some category;
                CategoryGroup := CategoryGroup output;
                Enabled := Enabled output |}
        else {| Category := Category output;
                CategoryGroup := Some categoryGroup;
                Enabled := Enabled output |}).

(** The [for _, raw := range input] loop with its accumulator [results]. *)
Fixpoint expandLogsLoop (input : list (gmap string value))
    (results : list SubscriptionLogSettings)
  : option (list SubscriptionLogSettings) :=
  match input with
  | [] => Some results
  | raw :: input' =>
      output ← expandLogEntry raw;
      expandLogsLoop input' (results ++ [output])
  end.

Definition expandSubscriptionMonitorDiagnosticsSettingsLogs
    (input : list (gmap string value))
  : option (list SubscriptionLogSettings) :=
  expandLogsLoop input [].

(** ** [flattenMonitorSubscriptionDiagnosticLogs] *)

Definition flattenLogEntry (v : SubscriptionLogSettings) : gmap string value :=
  let output : gmap string value := ∅ in
  let output :=
    match Category v with
    | Some c => <["category" := VString c]> output
    | None => output
    end in
  let output :=
    match CategoryGroup v with
    | Some g => <["category_group" := VString g]> output
    | None => output
    end in
  <["enabled" := VBool (Enabled v)]> output.

Fixpoint flattenLogsLoop (input : list SubscriptionLogSettings)
    (results : list (gmap string value)) : list (gmap string value) :=
  match input with
  | [] => results
  | v :: input' => flattenLogsLoop input' (results ++ [flattenLogEntry v])
  end.

Definition flattenMonitorSubscriptionDiagnosticLogs
    (input : option (list SubscriptionLogSettings))
  : list (gmap string value) :=
  match input with
  | None => []
  | Some l => flattenLogsLoop l []
  end.

(** ** The remote client and its answers *)

(** [*http.Response]: only the status code is ever inspected. *)
Record http_Response := {
  StatusCode : Z
}.

(** Modelled from the spec: [response.WasNotFound] (go-azure-helpers, not
    among the sources): a "not-found response" is a response that is present
    and carries the HTTP status 404. *)
Definition WasNotFound (resp : option http_Response) : bool :=
  match resp with
  | Some r => StatusCode r =? 404
  | None => false
  end%Z.

(** [subscriptiondiagnosticsettings.SubscriptionDiagnosticSettings]. *)
Record SubscriptionDiagnosticSettings := {
  EventHubAuthorizationRuleId : option string;
  EventHubName : option string;
  Logs : option (list SubscriptionLogSettings);
  StorageAccountId : option string;
  WorkspaceId : option string
}.

(** [subscriptiondiagnosticsettings.SubscriptionDiagnosticSettingsResource]. *)
Record SubscriptionDiagnosticSettingsResource := {
  Id : option string;
  Properties : option SubscriptionDiagnosticSettings
}.

(** [subscriptiondiagnosticsettings.GetOperationResponse]. *)
Record GetOperationResponse := {
  HttpResponse : option http_Response;
  Model : option SubscriptionDiagnosticSettingsResource
}.

(** [subscriptiondiagnosticsettings.NewDiagnosticSettingID]. *)
Definition NewDiagnosticSettingID (subscriptionId name : string)
  : DiagnosticSettingId :=
  {| SubscriptionId := subscriptionId; Name := name |}.

(** The three operations of [SubscriptionDiagnosticSettingsClient] that the
    resource uses, over the state [R] of the remote service. *)
Record Client (R : Type) := {
  clientGet : DiagnosticSettingId -> R ->
              (GetOperationResponse * option remote_error) * R;
  clientCreateOrUpdate : DiagnosticSettingId ->
                         SubscriptionDiagnosticSettingsResource -> R ->
                         option remote_error * R;
  clientDelete : DiagnosticSettingId -> R ->
                 (option http_Response * option remote_error) * R
}.
Arguments clientGet {R} _ _ _.
Arguments clientCreateOrUpdate {R} _ _ _ _.
Arguments clientDelete {R} _ _ _.

(** The answer of an ID parser of another service: the normalised ID, or
    the message of the failure. *)
Inductive parsedId :=
| ParsedId (id : string)
| ParseFailure (msg : string).

(** What the resource functions take from their surroundings: the client and
    the ID parsers of the other services. *)
Record Env (R : Type) := {
  client : Client R;
  ParseAuthorizationRuleIDInsensitively : string -> parsedId;
  ParseWorkspaceID : string -> parsedId;
  StorageAccountID : string -> parsedId
}.
Arguments client {R} _.
Arguments ParseAuthorizationRuleIDInsensitively {R} _ _.
Arguments ParseWorkspaceID {R} _ _.
Arguments StorageAccountID {R} _ _.

(** ** The resource data [d] *)

(** An attribute of the resource: a string, or the [log] set as the list its
    [List()] returns. *)
Inductive attr :=
| AString (s : string)
| ALogs (l : list (gmap string value)).

(** [*pluginsdk.ResourceData]: the resource ID, whether the resource is being
    created, the attributes, and the configured delete timeout. *)
Record ResourceData := {
  rdId : string;
  rdIsNewResource : bool;
  rdAttrs : gmap string attr;
  rdTimeoutDelete : Z
}.

(** [d.Get(key).(string)]: a string attribute, the zero value when unset. *)
Definition getString (d : ResourceData) (key : string) : string :=
  match rdAttrs d !! key with
  | Some (AString s) => s
  | _ => ""
  end.

(** The list of the [log] set: [d.Get] of the key, then [List()]. *)
Definition getLogList (d : ResourceData) : list (gmap string value) :=
  match rdAttrs d !! "log" with
  | Some (ALogs l) => l
  | _ => []
  end.

(** ** Worlds and the monad of the resource functions *)

Inductive Call :=
| CallGet (id : DiagnosticSettingId)
| CallCreateOrUpdate (id : DiagnosticSettingId)
                     (parameters : SubscriptionDiagnosticSettingsResource)
| CallDelete (id : DiagnosticSettingId).

Definition isCreateOrUpdate (c : Call) : bool :=
  match c with
  | CallCreateOrUpdate _ _ => true
  | _ => false
  end.

(** The resource data, the remote service, the log of the remote calls made
    so far (each with the time of the call) and the clock. *)
Record World (R : Type) := {
  wData : ResourceData;
  wRemote : R;
  wCalls : list (Z * Call);
  wClock : Z
}.
Arguments wData {R} _.
Arguments wRemote {R} _.
Arguments wCalls {R} _.
Arguments wClock {R} _.

Inductive outcome (A : Type) :=
| Val (a : A)
| Panic.
Arguments Val {A} a.
Arguments Panic {A}.

(** A computation over a state [S] that returns a value or panics. *)
Definition St (S A : Type) : Type := S -> outcome A * S.

Definition ret {S A} (a : A) : St S A := fun w => (Val a, w).

Definition bind {S A B} (c : St S A) (k : A -> St S B) : St S B :=
  fun w =>
    match c w with
    | (Val a, w') => k a w'
    | (Panic, w') => (Panic, w')
    end.

Definition panic {S A} : St S A := fun w => (Panic, w).

(** The computations of the resource functions. *)
Definition M (R A : Type) : Type := St (World R) A.

Declare Scope go_scope.
Delimit Scope go_scope with go.
Notation "'do' x <- c ; k" := (bind c (fun x => k))
  (at level 10, x name, c at level 100, k at level 200) : go_scope.
Notation "'do' ' p <- c ; k" := (bind c (fun x => let 'p := x in k))
  (at level 10, p pattern, c at level 100, k at level 200) : go_scope.
Notation "'run' c ; k" := (bind c (fun _ => k))
  (at level 10, c at level 100, k at level 200) : go_scope.
Open Scope go_scope.

(** A nilable pointer: the test against nil and the dereference, which
    panics on nil. *)
Definition isNil {A} (p : option A) : bool :=
  match p with
  | Some _ => false
  | None => true
  end.

Definition deref {S A} (p : option A) : St S A :=
  match p with
  | Some a => ret a
  | None => panic
  end.

(** [utils.NormalizeNilableString]: the empty string for nil. *)
Definition NormalizeNilableString (p : option string) : string :=
  match p with
  | Some s => s
  | None => ""
  end.

(** [p != nil && *p != ""] on a [*string]. *)
Definition nonEmptyPtr (p : option string) : bool :=
  match p with
  | Some s => negb (String.eqb s "")
  | None => false
  end.

(** The keys of the resource schema and whether each holds the [log] set. *)
Definition schemaKeys : list (string * bool) :=
  [("name", false); ("target_subscription_id", false);
   ("eventhub_name", false); ("eventhub_authorization_rule_id", false);
   ("log_analytics_workspace_id", false); ("storage_account_id", false);
   ("log", true)].

Definition attrIsSet (v : attr) : bool :=
  match v with
  | ALogs _ => true
  | AString _ => false
  end.

Definition schemaAccepts (key : string) (v : attr) : bool :=
  existsb (fun kv => String.eqb (fst kv) key && Bool.eqb (snd kv) (attrIsSet v))
          schemaKeys.

(** [time.Duration] counts nanoseconds. *)
Definition Second : Z := 1000000000.
Definition Minute : Z := 60 * Second.

Section Primitives.
Context {R : Type}.

Definition getData : M R ResourceData := fun w => (Val (wData w), w).

Definition putData (d : ResourceData) : M R unit :=
  fun w => (Val tt, {| wData := d; wRemote := wRemote w;
                       wCalls := wCalls w; wClock := wClock w |}).

(** [d.SetId]. *)
Definition d_SetId (id : string) : M R unit :=
  do d <- getData;
  putData {| rdId := id; rdIsNewResource := rdIsNewResource d;
             rdAttrs := rdAttrs d; rdTimeoutDelete := rdTimeoutDelete d |}.

(** [d.Set]: stores the attribute; an error (and no change) for a key or a
    kind of value that the schema does not have. *)
Definition d_Set (key : string) (v : attr) : M R (option string) :=
  if schemaAccepts key v then
    do d <- getData;
    run putData {| rdId := rdId d; rdIsNewResource := rdIsNewResource d;
                   rdAttrs := <[key := v]> (rdAttrs d);
                   rdTimeoutDelete := rdTimeoutDelete d |};
    ret None
  else ret (Some key).

(** Records a remote call at the current time. *)
Definition logCall (c : Call) : M R unit :=
  fun w => (Val tt, {| wData := wData w; wRemote := wRemote w;
                       wCalls := wCalls w ++ [(wClock w, c)];
                       wClock := wClock w |}).

(** Runs an operation of the remote service on its state. *)
Definition remote {A} (op : R -> A * R) : M R A :=
  fun w => let '(a, r) := op (wRemote w) in
           (Val a, {| wData := wData w; wRemote := r;
                      wCalls := wCalls w; wClock := wClock w |}).

(** Lets [dt] nanoseconds pass. *)
Definition sleep (dt : Z) : M R unit :=
  fun w => (Val tt, {| wData := wData w; wRemote := wRemote w;
                       wCalls := wCalls w; wClock := (wClock w + dt)%Z |}).

Definition client_Get (c : Client R) (id : DiagnosticSettingId)
  : M R (GetOperationResponse * option remote_error) :=
  run logCall (CallGet id);
  remote (clientGet c id).

Definition client_CreateOrUpdate (c : Client R) (id : DiagnosticSettingId)
    (parameters : SubscriptionDiagnosticSettingsResource)
  : M R (option remote_error) :=
  run logCall (CallCreateOrUpdate id parameters);
  remote (clientCreateOrUpdate c id parameters).

Definition client_Delete (c : Client R) (id : DiagnosticSettingId)
  : M R (option http_Response * option remote_error) :=
  run logCall (CallDelete id);
  remote (clientDelete c id).
End Primitives.

(** ** The read function *)

Section Read.
Context {R : Type} (env : Env R).

(** The part of the read function that copies the properties of the
    remote model into the resource data. *)
Definition readProperties (props : SubscriptionDiagnosticSettings)
  : M R (option error) :=
  run d_Set "eventhub_name"
            (AString (NormalizeNilableString (EventHubName props)));
  match (if nonEmptyPtr (EventHubAuthorizationRuleId props)
         then ParseAuthorizationRuleIDInsensitively env
                (NormalizeNilableString (EventHubAuthorizationRuleId props))
         else ParsedId "") with
  | ParseFailure err => ret (Some (ErrIdParse err))
  | ParsedId eventhubAuthorizationRuleId =>
  run d_Set "eventhub_authorization_rule_id"
            (AString eventhubAuthorizationRuleId);
  match (if nonEmptyPtr (WorkspaceId props)
         then ParseWorkspaceID env (NormalizeNilableString (WorkspaceId props))
         else ParsedId "") with
  | ParseFailure err => ret (Some (ErrIdParse err))
  | ParsedId workspaceId =>
  run d_Set "log_analytics_workspace_id" (AString workspaceId);
  do storage <-
    (if nonEmptyPtr (StorageAccountId props)
     then match StorageAccountID env
                  (NormalizeNilableString (StorageAccountId props)) with
          | ParseFailure err => ret (Some (ErrIdParse err))
          | ParsedId storageAccountId =>
              run d_Set "storage_account_id" (AString storageAccountId);
              ret None
          end
     else ret None);
  match storage with
  | Some err => ret (Some err)
  | None =>
  do err <- d_Set "log"
              (ALogs (flattenMonitorSubscriptionDiagnosticLogs (Logs props)));
  match err with
  | Some msg => ret (Some (ErrSettingLog msg))
  | None => ret None
  end
  end
  end
  end.

Definition resourceMonitorSubscriptionDiagnosticSettingRead
  : M R (option error) :=
  do d <- getData;
  match ParseMonitorSubscriptionDiagnosticId (rdId d) with
  | Err err => ret (Some err)
  | Ok id =>
  let subscriptionId := SubscriptionId id in
  do '(resp, err) <- client_Get (client env) id;
  match err with
  | Some e =>
      if WasNotFound (HttpResponse resp) then
        run d_SetId "";
        ret None
      else ret (Some (ErrRetrieving (Name id) subscriptionId e))
  | None =>
      run d_Set "name" (AString (Name id));
      run d_Set "target_subscription_id" (AString (SubscriptionId id));
      match Model resp with
      | Some model =>
          match Properties model with
          | Some props => readProperties props
          | None => ret None
          end
      | None => ret None
      end
  end
  end.
End Read.

(** ** The create/update function *)

(** The loop that looks for an enabled entry, leaving at the first one. *)
Fixpoint anyEnabled (logs : list SubscriptionLogSettings) : bool :=
  match logs with
  | [] => false
  | v :: logs' => if Enabled v then true else anyEnabled logs'
  end.

(** The ID of an existing remote model, when the model and its ID are
    present and the ID is not empty. *)
Definition existingModelId (existing : GetOperationResponse) : option string :=
  match Model existing with
  | Some model =>
      match Id model with
      | Some id => if negb (String.eqb id "") then Some id else None
      | None => None
      end
  | None => None
  end.

(** The destination fields as filled in from the configuration, with the
    flag [valid] that one of them at least was set. *)
Definition withDestinations (d : ResourceData)
    (logs : list SubscriptionLogSettings)
  : SubscriptionDiagnosticSettings * bool :=
  let properties :=
    {| EventHubAuthorizationRuleId := None; EventHubName := None;
       Logs := Some logs; StorageAccountId := None; WorkspaceId := None |} in
  let valid := false in
  let eventHubAuthorizationRuleId := getString d "eventhub_authorization_rule_id" in
  let eventHubName := getString d "eventhub_name" in
  let '(properties, valid) :=
    if negb (String.eqb eventHubAuthorizationRuleId "") then
      ({| EventHubAuthorizationRuleId := Some eventHubAuthorizationRuleId;
          EventHubName := Some eventHubName;
          Logs := Logs properties;
          StorageAccountId := StorageAccountId properties;
          WorkspaceId := WorkspaceId properties |}, true)
    else (properties, valid) in
  let workspaceId := getString d "log_analytics_workspace_id" in
  let '(properties, valid) :=
    if negb (String.eqb workspaceId "") then
      ({| EventHubAuthorizationRuleId := EventHubAuthorizationRuleId properties;
          EventHubName := EventHubName properties;
          Logs := Logs properties;
          StorageAccountId := StorageAccountId properties;
          WorkspaceId := Some workspaceId |}, true)
    else (properties, valid) in
  let storageAccountId := getString d "storage_account_id" in
  let '(properties, valid) :=
    if negb (String.eqb storageAccountId "") then
      ({| EventHubAuthorizationRuleId := EventHubAuthorizationRuleId properties;
          EventHubName := EventHubName properties;
          Logs := Logs properties;
          StorageAccountId := Some storageAccountId;
          WorkspaceId := WorkspaceId properties |}, true)
    else (properties, valid) in
  (properties, valid).

Section CreateUpdate.
Context {R : Type} (env : Env R).

(** The check made for a new resource: the remote object must not exist. *)
Definition checkNotPresent (id : DiagnosticSettingId) : M R (option error) :=
  do '(existing, err) <- client_Get (client env) id;
  let importCheck : M R (option error) :=
    match existingModelId existing with
    | Some existingId =>
        ret (Some (ErrImportAsExists
                     "azurerm_monitor_subscription_diagnostic_setting"
                     existingId))
    | None => ret None
    end in
  match err with
  | Some e =>
      if negb (WasNotFound (HttpResponse existing))
      then ret (Some (ErrCheckingPresence (Name id) (SubscriptionId id) e))
      else importCheck
  | None => importCheck
  end.

(** The guard on the result of the follow-up [Get],
    [read.Model == nil && read.Model.Id == nil]: the right operand is
    evaluated only when the left one is true, and reads the field [Id]
    through the pointer [read.Model]. *)
Definition cannotReadIdGuard (read : GetOperationResponse) : M R bool :=
  if isNil (Model read) then
    do model <- deref (Model read);
    ret (isNil (Id model))
  else ret false.

(** The function from the destination check on. *)
Definition createAndRead (d : ResourceData) (name subscriptionID : string)
    (id : DiagnosticSettingId) (logs : list SubscriptionLogSettings)
  : M R (option error) :=
  let '(properties, valid) := withDestinations d logs in
  let parameters := {| Id := None; Properties := Some properties |} in
  if negb valid then ret (Some ErrNoDestination)
  else
  do err <- client_CreateOrUpdate (client env) id parameters;
  match err with
  | Some e => ret (Some (ErrCreating name subscriptionID e))
  | None =>
  do '(read, err) <- client_Get (client env) id;
  match err with
  | Some e => ret (Some (ErrRemote e))
  | None =>
  do guard <- cannotReadIdGuard read;
  if guard then ret (Some (ErrCannotReadID (Name id) (SubscriptionId id)))
  else
    run d_SetId (formatResourceId subscriptionID name);
    resourceMonitorSubscriptionDiagnosticSettingRead env
  end
  end.

Definition resourceMonitorSubscriptionDiagnosticSettingCreateUpdate
  : M R (option error) :=
  do d <- getData;
  let name := getString d "name" in
  let subscriptionID := getString d "target_subscription_id" in
  let subscriptionDiagnosticSettingId :=
    NewDiagnosticSettingID subscriptionID name in
  do present <-
    (if rdIsNewResource d
     then checkNotPresent subscriptionDiagnosticSettingId
     else ret None);
  match present with
  | Some err => ret (Some err)
  | None =>
  let logsRaw := getLogList d in
  do logs <- deref (expandSubscriptionMonitorDiagnosticsSettingsLogs logsRaw);
  if Nat.eqb (length logs) 0 then ret (Some ErrNoLogBlock)
  else
  let valid := anyEnabled logs in
  if negb valid then ret (Some ErrNoLogEnabled)
  else createAndRead d name subscriptionID subscriptionDiagnosticSettingId logs
  end.
End CreateUpdate.

(** ** The delete function and its polling *)

(** The first value returned by a refresh function (an [interface{}]). *)
Inductive refreshed :=
| RNil
| RString (s : string)
| RResponse (res : GetOperationResponse).

(** [pluginsdk.StateChangeConf], with the fields the delete function sets. *)
Record StateChangeConf (R : Type) := {
  Pending : list string;
  Target : list string;
  Refresh : M R (refreshed * string * option error);
  MinTimeout : Z;
  ContinuousTargetOccurence : nat;
  Timeout : Z
}.
Arguments Pending {R} _.
Arguments Target {R} _.
Arguments Refresh {R} _.
Arguments MinTimeout {R} _.
Arguments ContinuousTargetOccurence {R} _.
Arguments Timeout {R} _.

Definition stateIn (state : string) (states : list string) : bool :=
  existsb (String.eqb state) states.

(** The number of refreshes, the first at once and the next ones
    [MinTimeout] apart, that fit within [Timeout]. *)
Definition pollsWithin {R} (conf : StateChangeConf R) : nat :=
  S (Z.to_nat (Timeout conf / MinTimeout conf)).

(** Modelled from the spec: the polling loop of
    [StateChangeConf.WaitForStateContext] (plugin SDK, not among the
    sources), "a simple fixed-interval poll-until-not-found loop with a
    library-provided state machine helper". The refresh function is called,
    then called again every [MinTimeout], until it has reported a [Target]
    state [ContinuousTargetOccurence] times in a row; a [Pending] state
    starts the count again; an error of the refresh function, or a state that
    is neither pending nor a target, ends the wait with an error; so does the
    timeout, when no refresh is left within [Timeout]. *)
Fixpoint waitLoop {R} (polls : nat) (conf : StateChangeConf R)
    (targetOccurence : nat) (lastState : string)
  : M R (refreshed * option error) :=
  match polls with
  | O => ret (RNil, Some (ErrTimeout lastState))
  | S polls' =>
      do '(res, currentState, err) <- Refresh conf;
      match err with
      | Some e => ret (RNil, Some e)
      | None =>
          if stateIn currentState (Target conf) then
            if Nat.eqb (ContinuousTargetOccurence conf) (S targetOccurence)
            then ret (res, None)
            else
              run sleep (MinTimeout conf);
              waitLoop polls' conf (S targetOccurence) currentState
          else if stateIn currentState (Pending conf) then
            run sleep (MinTimeout conf);
            waitLoop polls' conf 0 currentState
          else ret (RNil, Some (ErrUnexpectedState currentState))
      end
  end.

Definition WaitForStateContext {R} (conf : StateChangeConf R)
  : M R (refreshed * option error) :=
  waitLoop (pollsWithin conf) conf 0 "".

Section Delete.
Context {R : Type} (env : Env R).

Definition monitorSubscriptionDiagnosticSettingDeletedRefreshFunc
    (c : Client R) (targetSettingId : DiagnosticSettingId)
  : M R (refreshed * string * option error) :=
  do '(res, err) <- client_Get c targetSettingId;
  match err with
  | Some e =>
      if WasNotFound (HttpResponse res)
      then ret (RString "NotFound", "NotFound", None)
      else ret (RNil, "", Some (ErrRefresh e))
  | None => ret (RResponse res, "Exists", None)
  end.

(** The [stateConf] that the delete function builds. *)
Definition deleteStateConf (d : ResourceData) (id : DiagnosticSettingId)
  : StateChangeConf R :=
  {| Pending := ["Exists"];
     Target := ["NotFound"];
     Refresh :=
       monitorSubscriptionDiagnosticSettingDeletedRefreshFunc (client env) id;
     MinTimeout := 15 * Second;
     ContinuousTargetOccurence := 5;
     Timeout := rdTimeoutDelete d |}.

Definition resourceMonitorSubscriptionDiagnosticSettingDelete
  : M R (option error) :=
  do d <- getData;
  match ParseMonitorSubscriptionDiagnosticId (rdId d) with
  | Err err => ret (Some err)
  | Ok id =>
  do '(resp, err) <- client_Delete (client env) id;
  let wait : M R (option error) :=
    let stateConf := deleteStateConf d id in
    do '(_, err) <- WaitForStateContext stateConf;
    match err with
    | Some e => ret (Some (ErrWaiting (Name id) (SubscriptionId id) e))
    | None => ret None
    end in
  match err with
  | Some e =>
      if negb (WasNotFound resp)
      then ret (Some (ErrDeleting (Name id) (SubscriptionId id) e))
      else wait
  | None => wait
  end
  end.
End Delete.

(** ** Scripted remote services, for running the functions *)

(** A remote service whose state counts the [Get] calls answered so far: the
    [n]-th [Get] is answered by [gets n], every [CreateOrUpdate] by [cu] and
    every [Delete] by [del]. *)
Definition scriptedClient
    (gets : nat -> GetOperationResponse * option remote_error)
    (cu : option remote_error)
    (del : option http_Response * option remote_error) : Client nat :=
  {| clientGet := fun _ n => (gets n, S n);
     clientCreateOrUpdate := fun _ _ n => (cu, n);
     clientDelete := fun _ n => (del, n) |}.

(** ID parsers that accept every ID as it is. *)
Definition scriptedEnv
    (gets : nat -> GetOperationResponse * option remote_error)
    (cu : option remote_error)
    (del : option http_Response * option remote_error) : Env nat :=
  {| client := scriptedClient gets cu del;
     ParseAuthorizationRuleIDInsensitively := fun s => ParsedId s;
     ParseWorkspaceID := fun s => ParsedId s;
     StorageAccountID := fun s => ParsedId s |}.

Definition initialWorld (d : ResourceData) : World nat :=
  {| wData := d; wRemote := 0; wCalls := []; wClock := 0 |}.

(** ** The watchlists client *)

Module securityinsight.

(** *** Request validation *)

(** The constraint names that the client uses. *)
Inductive ConstraintName :=
| MinLength
| MaxLength
| Null.

(** The [Rule] of a constraint: a length or a flag. *)
Inductive RuleValue :=
| RuleInt (n : Z)
| RuleBool (b : bool).

(** [validation.Constraint]. *)
Inductive Constraint :=
| MkConstraint (target : string) (name : ConstraintName) (rule : RuleValue)
               (chain : list Constraint).

Definition cTarget (v : Constraint) : string :=
  match v with MkConstraint t _ _ _ => t end.
Definition cName (v : Constraint) : ConstraintName :=
  match v with MkConstraint _ n _ _ => n end.
Definition cRule (v : Constraint) : RuleValue :=
  match v with MkConstraint _ _ r _ => r end.
Definition cChain (v : Constraint) : list Constraint :=
  match v with MkConstraint _ _ _ c => c end.

(** A target value as reflection sees it: a string, a pointer (nil or not)
    or a struct with named fields. *)
Inductive reflected :=
| RStr (s : string)
| RPtr (p : option reflected)
| RStruct (fields : list (string * reflected)).

(** [validation.Validation]. *)
Record Validation := {
  TargetValue : reflected;
  Constraints : list Constraint
}.

(** A failed constraint: its target, its name and the details. *)
Record Failure := {
  failedTarget : string;
  failedName : ConstraintName;
  failedDetails : string
}.

Definition createError (v : Constraint) (details : string) : Failure :=
  {| failedTarget := cTarget v; failedName := cName v;
     failedDetails := details |}.

(** The field that a target [a.b.c] names: its last segment. *)
Definition fieldOfTarget (target : string) : string :=
  List.last (strings.Split target ".") "".

Definition checkNil (v : Constraint) : option Failure :=
  match cRule v with
  | RuleBool true =>
      Some (createError v "value can not be null; required parameter")
  | RuleBool false => None
  | RuleInt _ => Some (createError v "rule must be bool value")
  end.

Definition validateString (s : string) (v : Constraint) : option Failure :=
  match cName v, cRule v with
  | MaxLength, RuleInt n =>
      if (Z.of_nat (String.length s) <=? n)%Z then None
      else Some (createError v "value length must be less than or equal to")
  | MinLength, RuleInt n =>
      if (n <=? Z.of_nat (String.length s))%Z then None
      else Some (createError v "value length must be greater than or equal to")
  | _, _ => Some (createError v "constraint is not applicable to string type")
  end.

(** Modelled from the spec: the checks of [validation.Validate] (go-autorest,
    not among the sources), the "parameter validation" of the generated
    client. A string is checked against a minimal or a maximal length; a nil
    pointer fails a [Null] constraint whose rule is [true] and passes one whose
    rule is [false]; a pointer that is not nil is checked, through what it
    points to, against the chained constraints; a struct is checked through
    the field that the target of the constraint names. *)
Fixpoint validate (x : reflected) (v : Constraint) {struct x} : option Failure :=
  match x with
  | RStr s => validateString s v
  | RPtr None => checkNil v
  | RPtr (Some elem) =>
      (fix chained (cs : list Constraint) : option Failure :=
         match cs with
         | [] => None
         | c :: cs' =>
             match validate elem c with
             | Some err => Some err
             | None => chained cs'
             end
         end) (cChain v)
  | RStruct fields =>
      (fix field (fs : list (string * reflected)) : option Failure :=
         match fs with
         | [] => Some (createError v "field does not exist")
         | (n, f) :: fs' =>
             if String.eqb n (fieldOfTarget (cTarget v)) then validate f v
             else field fs'
         end) fields
  end.

(** The constraints of one item, in order, up to the first failure. *)
Fixpoint validateConstraints (x : reflected) (cs : list Constraint)
  : option Failure :=
  match cs with
  | [] => None
  | c :: cs' =>
      match validate x c with
      | Some err => Some err
      | None => validateConstraints x cs'
      end
  end.

(** [validation.Validate]: the items in order, up to the first failure. *)
Fixpoint Validate (m : list Validation) : option Failure :=
  match m with
  | [] => None
  | item :: m' =>
      match validateConstraints (TargetValue item) (Constraints item) with
      | Some err => Some err
      | None => Validate m'
      end
  end.

(** *** The models *)

(** Modelled from the spec: the fields of [WatchlistProperties] (declared in
    the models of the package, not among the sources) that the constraints
    of [CreateOrUpdate] name. *)
Record watchlistProperties := {
  DisplayName : option string;
  Provider : option string;
  ItemsSearchKey : option string
}.

(** [Watchlist]: the response it came with and its properties. *)
Record Watchlist := {
  Response : option http_Response;
  WatchlistProperties : option watchlistProperties
}.

(** [WatchlistList]: one page of watchlists as the service returns it. *)
Record WatchlistList := {
  ListResponse : option http_Response;
  Value : option (list Watchlist);
  NextLink : option string
}.

(** [WatchlistListPage]: the current page [wl] and whether the function that
    fetches the next one, [fn], has been set. *)
Record WatchlistListPage := {
  fn : bool;
  wl : WatchlistList
}.

Definition hasNextLink (l : WatchlistList) : bool := nonEmptyPtr (NextLink l).

Definition IsEmpty (l : WatchlistList) : bool :=
  match Value l with
  | Some (_ :: _) => false
  | _ => true
  end.

Definition reflectStringPtr (p : option string) : reflected :=
  RPtr (option_map RStr p).

Definition reflectWatchlistProperties (p : watchlistProperties) : reflected :=
  RStruct [("DisplayName", reflectStringPtr (DisplayName p));
           ("Provider", reflectStringPtr (Provider p));
           ("ItemsSearchKey", reflectStringPtr (ItemsSearchKey p))].

Definition reflectWatchlist (w : Watchlist) : reflected :=
  RStruct [("WatchlistProperties",
            RPtr (option_map reflectWatchlistProperties (WatchlistProperties w)))].

(** *** Requests, errors and the transport *)

Record Request := {
  Method : string;
  ContentType : option string;
  BaseURL : string;
  Path : string;
  PathParameters : list (string * string);
  QueryParameters : list (string * string);
  Body : option Watchlist
}.

(** What the client does towards the network. *)
Inductive Event :=
| Prepared (req : Request)
| Sent (req : Request).

Inductive clientError :=
| ValidationError (packageType method : string) (failure : Failure)
| DetailedError (original : string) (packageType method : string)
                (resp : option http_Response) (message : string)
| PagingError (original : string).

(** [BaseClient], which [WatchlistsClient] embeds. *)
Record WatchlistsClient := {
  BaseURI : string;
  SubscriptionID : string
}.

(** The behaviour of go-autorest and of the network, which the client takes
    as given: the encoding of parameters, the error (if any) of preparing a
    request, the answer to a request sent, the decoding of a response given
    the accepted status codes, and the walk to the next non-empty page. *)
Record Autorest := {
  Encode : string -> string -> string;
  Prepare : Request -> option string;
  Send : Request -> option http_Response * option string;
  RespondWatchlist : option http_Response -> list Z -> Watchlist * option string;
  RespondWatchlistList :
    option http_Response -> list Z -> WatchlistList * option string;
  RespondEmpty : option http_Response -> list Z -> option string;
  NextWithContext : WatchlistListPage -> WatchlistListPage * option string
}.

Definition T (A : Type) : Type := St (list Event) A.

Definition emit (e : Event) : T unit := fun evs => (Val tt, (evs ++ [e])%list).

Definition APIVersion : string := "2022-01-01-preview".

Definition StatusOK : Z := 200.
Definition StatusCreated : Z := 201.
Definition StatusNoContent : Z := 204.

(** *** The operations *)

Definition watchlistPath : string :=
  "/subscriptions/{subscriptionId}/resourceGroups/{resourceGroupName}/providers/Microsoft.OperationalInsights/workspaces/{workspaceName}/providers/Microsoft.SecurityInsights/watchlists/{watchlistAlias}".

Definition watchlistsPath : string :=
  "/subscriptions/{subscriptionId}/resourceGroups/{resourceGroupName}/providers/Microsoft.OperationalInsights/workspaces/{workspaceName}/providers/Microsoft.SecurityInsights/watchlists".

(** The validations common to the four operations. *)
Definition commonValidations (client : WatchlistsClient)
    (resourceGroupName workspaceName : string) : list Validation :=
  [ {| TargetValue := RStr (SubscriptionID client);
       Constraints :=
         [MkConstraint "client.SubscriptionID" MinLength (RuleInt 1) []] |};
    {| TargetValue := RStr resourceGroupName;
       Constraints :=
         [MkConstraint "resourceGroupName" MaxLength (RuleInt 90) [];
          MkConstraint "resourceGroupName" MinLength (RuleInt 1) []] |};
    {| TargetValue := RStr workspaceName;
       Constraints :=
         [MkConstraint "workspaceName" MaxLength (RuleInt 90) [];
          MkConstraint "workspaceName" MinLength (RuleInt 1) []] |} ].

(** The validation of the watchlist that [CreateOrUpdate] adds. *)
Definition watchlistValidation (watchlist : Watchlist) : Validation :=
  {| TargetValue := reflectWatchlist watchlist;
     Constraints :=
       [MkConstraint "watchlist.WatchlistProperties" Null (RuleBool false)
          [MkConstraint "watchlist.WatchlistProperties.DisplayName" Null
                        (RuleBool true) [];
           MkConstraint "watchlist.WatchlistProperties.Provider" Null
                        (RuleBool true) [];
           MkConstraint "watchlist.WatchlistProperties.ItemsSearchKey" Null
                        (RuleBool true) []]] |}.

Definition zeroWatchlist : Watchlist :=
  {| Response := None; WatchlistProperties := None |}.

Definition zeroWatchlistList : WatchlistList :=
  {| ListResponse := None; Value := None; NextLink := None |}.

Definition zeroWatchlistListPage : WatchlistListPage :=
  {| fn := false; wl := zeroWatchlistList |}.

Definition pkg : string := "securityinsight.WatchlistsClient".

Section Operations.
Context (ar : Autorest).

(** A preparer builds the request and reports the error of preparing it. *)
Definition prepare (req : Request) : T (Request * option string) :=
  run emit (Prepared req);
  ret (req, Prepare ar req).

(** A sender sends the request and returns the answer. *)
Definition send (req : Request) : T (option http_Response * option string) :=
  run emit (Sent req);
  ret (Send ar req).

Definition itemPathParameters (client : WatchlistsClient)
    (resourceGroupName workspaceName watchlistAlias : string)
  : list (string * string) :=
  [("resourceGroupName", Encode ar "path" resourceGroupName);
   ("subscriptionId", Encode ar "path" (SubscriptionID client));
   ("watchlistAlias", Encode ar "path" watchlistAlias);
   ("workspaceName", Encode ar "path" workspaceName)].

Definition CreateOrUpdatePreparer (client : WatchlistsClient)
    (resourceGroupName workspaceName watchlistAlias : string)
    (watchlist : Watchlist) : T (Request * option string) :=
  prepare {| Method := "PUT";
             ContentType := Some "application/json; charset=utf-8";
             BaseURL := BaseURI client;
             Path := watchlistPath;
             PathParameters :=
               itemPathParameters client resourceGroupName workspaceName
                                  watchlistAlias;
             QueryParameters := [("api-version", APIVersion)];
             Body := Some watchlist |}.

Definition CreateOrUpdateResponder (resp : option http_Response)
  : Watchlist * option string :=
  let '(result, err) := RespondWatchlist ar resp [StatusOK; StatusCreated] in
  ({| Response := resp;
      WatchlistProperties := WatchlistProperties result |}, err).

Definition CreateOrUpdate (client : WatchlistsClient)
    (resourceGroupName workspaceName watchlistAlias : string)
    (watchlist : Watchlist) : T (Watchlist * option clientError) :=
  let result := zeroWatchlist in
  match Validate (commonValidations client resourceGroupName workspaceName
                  ++ [watchlistValidation watchlist]) with
  | Some err => ret (result, Some (ValidationError pkg "CreateOrUpdate" err))
  | None =>
  do '(req, err) <- CreateOrUpdatePreparer client resourceGroupName
                      workspaceName watchlistAlias watchlist;
  match err with
  | Some e =>
      ret (result, Some (DetailedError e pkg "CreateOrUpdate" None
                           "Failure preparing request"))
  | None =>
  do '(resp, err) <- send req;
  match err with
  | Some e =>
      ret ({| Response := resp;
              WatchlistProperties := WatchlistProperties result |},
           Some (DetailedError e pkg "CreateOrUpdate" resp
                   "Failure sending request"))
  | None =>
  let '(result, err) := CreateOrUpdateResponder resp in
  match err with
  | Some e =>
      ret (result, Some (DetailedError e pkg "CreateOrUpdate" resp
                           "Failure responding to request"))
  | None => ret (result, None)
  end
  end
  end
  end.

Definition DeletePreparer (client : WatchlistsClient)
    (resourceGroupName workspaceName watchlistAlias : string)
  : T (Request * option string) :=
  prepare {| Method := "DELETE";
             ContentType := None;
             BaseURL := BaseURI client;
             Path := watchlistPath;
             PathParameters :=
               itemPathParameters client resourceGroupName workspaceName
                                  watchlistAlias;
             QueryParameters := [("api-version", APIVersion)];
             Body := None |}.

Definition DeleteResponder (resp : option http_Response)
  : option http_Response * option string :=
  let err := RespondEmpty ar resp [StatusOK; StatusNoContent] in
  (resp, err).

Definition Delete (client : WatchlistsClient)
    (resourceGroupName workspaceName watchlistAlias : string)
  : T (option http_Response * option clientError) :=
  let result : option http_Response := None in
  match Validate (commonValidations client resourceGroupName workspaceName) with
  | Some err => ret (result, Some (ValidationError pkg "Delete" err))
  | None =>
  do '(req, err) <- DeletePreparer client resourceGroupName workspaceName
                      watchlistAlias;
  match err with
  | Some e =>
      ret (result, Some (DetailedError e pkg "Delete" None
                           "Failure preparing request"))
  | None =>
  do '(resp, err) <- send req;
  match err with
  | Some e =>
      ret (resp, Some (DetailedError e pkg "Delete" resp
                         "Failure sending request"))
  | None =>
  let '(result, err) := DeleteResponder resp in
  match err with
  | Some e =>
      ret (result, Some (DetailedError e pkg "Delete" resp
                           "Failure responding to request"))
  | None => ret (result, None)
  end
  end
  end
  end.

Definition GetPreparer (client : WatchlistsClient)
    (resourceGroupName workspaceName watchlistAlias : string)
  : T (Request * option string) :=
  prepare {| Method := "GET";
             ContentType := None;
             BaseURL := BaseURI client;
             Path := watchlistPath;
             PathParameters :=
               itemPathParameters client resourceGroupName workspaceName
                                  watchlistAlias;
             QueryParameters := [("api-version", APIVersion)];
             Body := None |}.

Definition GetResponder (resp : option http_Response)
  : Watchlist * option string :=
  let '(result, err) := RespondWatchlist ar resp [StatusOK] in
  ({| Response := resp;
      WatchlistProperties := WatchlistProperties result |}, err).

Definition Get (client : WatchlistsClient)
    (resourceGroupName workspaceName watchlistAlias : string)
  : T (Watchlist * option clientError) :=
  let result := zeroWatchlist in
  match Validate (commonValidations client resourceGroupName workspaceName) with
  | Some err => ret (result, Some (ValidationError pkg "Get" err))
  | None =>
  do '(req, err) <- GetPreparer client resourceGroupName workspaceName
                      watchlistAlias;
  match err with
  | Some e =>
      ret (result, Some (DetailedError e pkg "Get" None
                           "Failure preparing request"))
  | None =>
  do '(resp, err) <- send req;
  match err with
  | Some e =>
      ret ({| Response := resp;
              WatchlistProperties := WatchlistProperties result |},
           Some (DetailedError e pkg "Get" resp "Failure sending request"))
  | None =>
  let '(result, err) := GetResponder resp in
  match err with
  | Some e =>
      ret (result, Some (DetailedError e pkg "Get" resp
                           "Failure responding to request"))
  | None => ret (result, None)
  end
  end
  end
  end.

Definition ListPreparer (client : WatchlistsClient)
    (resourceGroupName workspaceName skipToken : string)
  : T (Request * option string) :=
  let queryParameters := [("api-version", APIVersion)] in
  let queryParameters :=
    if (0 <? String.length skipToken)%nat
    then (queryParameters ++ [("$skipToken", Encode ar "query" skipToken)])%list
    else queryParameters in
  prepare {| Method := "GET";
             ContentType := None;
             BaseURL := BaseURI client;
             Path := watchlistsPath;
             PathParameters :=
               [("resourceGroupName", Encode ar "path" resourceGroupName);
                ("subscriptionId", Encode ar "path" (SubscriptionID client));
                ("workspaceName", Encode ar "path" workspaceName)];
             QueryParameters := queryParameters;
             Body := None |}.

Definition ListResponder (resp : option http_Response)
  : WatchlistList * option string :=
  let '(result, err) := RespondWatchlistList ar resp [StatusOK] in
  ({| ListResponse := resp; Value := Value result;
      NextLink := NextLink result |}, err).

Definition List (client : WatchlistsClient)
    (resourceGroupName workspaceName skipToken : string)
  : T (WatchlistListPage * option clientError) :=
  let result := zeroWatchlistListPage in
  match Validate (commonValidations client resourceGroupName workspaceName) with
  | Some err => ret (result, Some (ValidationError pkg "List" err))
  | None =>
  let result := {| fn := true; wl := wl result |} in
  do '(req, err) <- ListPreparer client resourceGroupName workspaceName
                      skipToken;
  match err with
  | Some e =>
      ret (result, Some (DetailedError e pkg "List" None
                           "Failure preparing request"))
  | None =>
  do '(resp, err) <- send req;
  match err with
  | Some e =>
      ret ({| fn := fn result;
              wl := {| ListResponse := resp; Value := Value (wl result);
                       NextLink := NextLink (wl result) |} |},
           Some (DetailedError e pkg "List" resp "Failure sending request"))
  | None =>
  let '(page, err) := ListResponder resp in
  let result := {| fn := fn result; wl := page |} in
  match err with
  | Some e =>
      ret (result, Some (DetailedError e pkg "List" resp
                           "Failure responding to request"))
  | None =>
      if (hasNextLink (wl result) && IsEmpty (wl result))%bool then
        let '(result, err) := NextWithContext ar result in
        ret (result, option_map PagingError err)
      else ret (result, None)
  end
  end
  end
  end.
End Operations.

(** Whether an error is a validation error. *)
Definition isValidationError (err : option clientError) : bool :=
  match err with
  | Some (ValidationError _ _ _) => true
  | _ => false
  end.

(** A transport for running the operations: every request is prepared
    without error and answered with the status 200 and an empty body. *)
Definition okAutorest : Autorest :=
  {| Encode := fun _ s => s;
     Prepare := fun _ => None;
     Send := fun _ => (Some {| StatusCode := 200 |}, None);
     RespondWatchlist := fun _ _ => (zeroWatchlist, None);
     RespondWatchlistList := fun _ _ => (zeroWatchlistList, None);
     RespondEmpty := fun _ _ => None;
     NextWithContext := fun page => (page, None) |}.

(** The parameters that the specification calls invalid: an empty
    subscription ID, or a resource group or workspace name that is empty or
    longer than 90 characters. *)
Definition invalidParameters (client : WatchlistsClient)
    (resourceGroupName workspaceName : string) : bool :=
  String.eqb (SubscriptionID client) ""
  || String.eqb resourceGroupName ""
  || (90 <? String.length resourceGroupName)%nat
  || String.eqb workspaceName ""
  || (90 <? String.length workspaceName)%nat.

(** A watchlist whose properties are present but lack the display name, the
    provider or the items search key. *)
Definition incompleteWatchlist (watchlist : Watchlist) : bool :=
  match WatchlistProperties watchlist with
  | Some p =>
      isNil (DisplayName p) || isNil (Provider p) || isNil (ItemsSearchKey p)
  | None => false
  end.

(** The error that an operation returns from the events [evs] on. *)
Definition returnedError {A} (c : T (A * option clientError))
    (evs : list Event) : option clientError :=
  match fst (c evs) with
  | Val (_, err) => err
  | Panic => None
  end.

(** The operation returned the zero result with a validation error naming
    [method], and did nothing towards the network. *)
Definition rejected {A} (method : string) (zero : A)
    (c : T (A * option clientError)) (evs : list Event) : Prop :=
  exists failure,
    c evs = (Val (zero, Some (ValidationError pkg method failure)), evs).

End securityinsight.

(** ** The vocabulary of the statements *)

(** Between [w] and [w'] no [CreateOrUpdate] was sent to the remote service. *)
Definition noCreateOrUpdateSince {R} (w w' : World R) : Prop :=
  exists calls,
    wCalls w' = (wCalls w ++ calls)%list /\
    Forall (fun c => isCreateOrUpdate (snd c) = false) calls.

(** The two errors about the [log] blocks. *)
Definition isLogError (e : error) : bool :=
  match e with
  | ErrNoLogBlock | ErrNoLogEnabled => true
  | _ => false
  end.

(** What the expansion makes of one raw entry. *)
Definition expandsTo (v : gmap string value) (o : SubscriptionLogSettings)
  : Prop :=
  exists category categoryGroup enabled,
    v !! "category" = Some (VString category) /\
    v !! "category_group" = Some (VString categoryGroup) /\
    v !! "enabled" = Some (VBool enabled) /\
    Enabled o = enabled /\
    (category <> "" -> Category o = Some category /\ CategoryGroup o = None) /\
    (category = "" -> Category o = None /\ CategoryGroup o = Some categoryGroup).

(** What the expansion followed by the flattening makes of one raw entry. *)
Definition roundTripsTo (v out : gmap string value) : Prop :=
  out !! "enabled" = v !! "enabled" /\
  (v !! "category" <> Some (VString "") ->
     out !! "category" = v !! "category" /\ out !! "category_group" = None) /\
  (v !! "category" = Some (VString "") ->
     out !! "category_group" = v !! "category_group" /\ out !! "category" = None).

(** An outcome that is neither of the two log errors nor the error about
    the destination. *)
Definition benign (out : outcome (option error)) : Prop :=
  forall e, out = Val (Some e) -> isLogError e = false /\ e <> ErrNoDestination.

(** The pointer that the destination fields get from an attribute: set only
    for a string that is not empty. *)
Definition ptrIfSet (s : string) : option string :=
  if String.eqb s "" then None else Some s.

(** The three destination attributes of the configuration. *)
Definition noDestination (d : ResourceData) : Prop :=
  getString d "eventhub_authorization_rule_id" = "" /\
  getString d "log_analytics_workspace_id" = "" /\
  getString d "storage_account_id" = "".

(** The ID under which create/update addresses the remote object. *)
Definition configuredId (d : ResourceData) : DiagnosticSettingId :=
  NewDiagnosticSettingID (getString d "target_subscription_id")
                         (getString d "name").

(** Create/update gets as far as the destination check, in the world [w1]
    and with the expanded [logs]: the check against an existing remote
    object (made for a new resource) found none, and one log entry at least
    is enabled. *)
Definition reachesDestinationCheck {R} (env : Env R) (w w1 : World R)
    (logs : list SubscriptionLogSettings) : Prop :=
  (if rdIsNewResource (wData w)
   then checkNotPresent env (configuredId (wData w)) w = (Val None, w1)
   else w1 = w) /\
  expandSubscriptionMonitorDiagnosticsSettingsLogs (getLogList (wData w))
    = Some logs /\
  anyEnabled logs = true.

(** What one poll of the delete function observes. *)
Inductive poll :=
| PollNotFound
| PollExists
| PollFailed.

Definition classify (g : GetOperationResponse * option remote_error) : poll :=
  match snd g with
  | Some _ =>
      if WasNotFound (HttpResponse (fst g)) then PollNotFound else PollFailed
  | None => PollExists
  end.

(** The state of the remote service after [n] calls of [Get]. *)
Fixpoint remoteAfter {R} (c : Client R) (id : DiagnosticSettingId) (r : R)
    (n : nat) : R :=
  match n with
  | O => r
  | S n' => remoteAfter c id (snd (clientGet c id r)) n'
  end.

(** What the [n]-th poll from now observes (counting from 0). *)
Definition nthPoll {R} (c : Client R) (id : DiagnosticSettingId) (r : R)
    (n : nat) : poll :=
  classify (fst (clientGet c id (remoteAfter c id r n))).

Section WorldsAfter.
Context {R : Type} (env : Env R).

(** The world after a [Get] was logged and answered. *)
Definition afterGet (id : DiagnosticSettingId) (w : World R) : World R :=
  {| wData := wData w;
     wRemote := snd (clientGet (client env) id (wRemote w));
     wCalls := (wCalls w ++ [(wClock w, CallGet id)])%list;
     wClock := wClock w |}.

(** The world after a [Delete] was logged and answered. *)
Definition afterDelete (id : DiagnosticSettingId) (w : World R) : World R :=
  {| wData := wData w;
     wRemote := snd (clientDelete (client env) id (wRemote w));
     wCalls := (wCalls w ++ [(wClock w, CallDelete id)])%list;
     wClock := wClock w |}.

(** The world after [dt] nanoseconds passed. *)
Definition afterSleep (dt : Z) (w : World R) : World R :=
  {| wData := wData w; wRemote := wRemote w; wCalls := wCalls w;
     wClock := (wClock w + dt)%Z |}.
End WorldsAfter.

(** Within the first [n] polls [f], and counting [occ] not-found polls seen
    just before them, some poll completes a run of five not-found polls, and
    no poll up to it failed. *)
Definition completesRun (f : nat -> poll) (n occ : nat) : Prop :=
  exists m,
    m < n /\
    (forall i, i <= m -> f i <> PollFailed) /\
    5 <= m + 1 + occ /\
    (forall i, i <= m -> m < i + 5 -> f i = PollNotFound).

(** The [Get] calls of a wait that starts at [clock]: [m] of them, spaced
    [MinTimeout] apart. *)
Definition pollCalls (id : DiagnosticSettingId) (clock interval : Z) (m : nat)
  : list (Z * Call) :=
  map (fun i => ((clock + Z.of_nat i * interval)%Z, CallGet id)) (seq 0 m).

(** ** Further functions of the sources *)

(** *** [resourceMonitorSubscriptionDiagnosticLogSettingHash] *)

(** The verb [%t]. *)
Definition formatBool (b : bool) : string := if b then "true" else "false".

(** What is written to the buffer for a key that holds a string: nothing
    when the key is absent, the string and a dash when it is present; a
    value of another type fails the type assertion. *)
Definition hashStringField (x : option value) : option string :=
  match x with
  | None => Some ""
  | Some _ => s ← assertString x; Some (s ++ "-")
  end.

(** The same for a key that holds a boolean. *)
Definition hashBoolField (x : option value) : option string :=
  match x with
  | None => Some ""
  | Some _ => b ← assertBool x; Some (formatBool b ++ "-")
  end.

(** The contents of the buffer when the function hashes it; the input is a
    map, or ([None]) a value of another type, for which nothing is
    written. *)
Definition logSettingHashBuffer (input : option (gmap string value))
  : option string :=
  match input with
  | Some rawData =>
      category ← hashStringField (rawData !! "category");
      categoryGroup ← hashStringField (rawData !! "category_group");
      enabled ← hashBoolField (rawData !! "enabled");
      Some (category ++ categoryGroup ++ enabled)
  | None => Some ""
  end.

(** The hash, over the [pluginsdk.HashString] of the plugin SDK. *)
Definition resourceMonitorSubscriptionDiagnosticLogSettingHash
    (HashString : string -> Z) (input : option (gmap string value))
  : option Z :=
  HashString <$> logSettingHashBuffer input.

(** *** The check of the acceptance tests that the resource exists *)

(** The errors of the check: the error of the ID parser as it is, or the
    error of the [Get], wrapped. *)
Inductive existsError :=
| ExistsParseError (err : error)
| ExistsReadingError (id : DiagnosticSettingId) (err : remote_error).

Section ExistsCheck.
Context {R : Type} (env : Env R).

(** [MonitorSubscriptionDiagnosticSettingResource.Exists], on the ID of the
    state. *)
Definition MonitorSubscriptionDiagnosticSettingResource_Exists
    (stateID : string) : M R (option bool * option existsError) :=
  match ParseMonitorSubscriptionDiagnosticId stateID with
  | Err err => ret (None, Some (ExistsParseError err))
  | Ok id =>
  do '(resp, err) <- client_Get (client env) id;
  match err with
  | Some e => ret (None, Some (ExistsReadingError id e))
  | None =>
  do exists_ <-
    (if negb (isNil (Model resp)) then
       do model <- deref (Model resp);
       ret (negb (isNil (Id model)))
     else ret false);
  ret (Some exists_, None)
  end
  end.
End ExistsCheck.

(** *** The next page of watchlists *)

Module securityinsightPaging.
Import securityinsight.

Section Paging.
Context (ar : Autorest).

(** The preparer of the request for the next page, a method of
    [WatchlistList] declared in the models of the package (not among the
    sources): the request, if there is a next page, or an error. *)
Context (watchlistListPreparer : WatchlistList -> option Request * option string).

Definition listNextResults (client : WatchlistsClient)
    (lastResults : WatchlistList) : T (WatchlistList * option clientError) :=
  let result := zeroWatchlistList in
  let '(req, err) := watchlistListPreparer lastResults in
  match err with
  | Some e =>
      ret (result, Some (DetailedError e pkg "listNextResults" None
                           "Failure preparing next results request"))
  | None =>
  match req with
  | None => ret (result, None)
  | Some req =>
  run emit (Prepared req);
  do '(resp, err) <- send ar req;
  match err with
  | Some e =>
      ret ({| ListResponse := resp; Value := Value result;
              NextLink := NextLink result |},
           Some (DetailedError e pkg "listNextResults" resp
                   "Failure sending next results request"))
  | None =>
  let '(result, err) := ListResponder ar resp in
  match err with
  | Some e =>
      ret (result, Some (DetailedError e pkg "listNextResults" resp
                           "Failure responding to next results request"))
  | None => ret (result, None)
  end
  end
  end
  end.
End Paging.

End securityinsightPaging.

(** *** More vocabulary *)

(** The poll [i] (counted from 0) is the fifth not-found poll in a row,
    counting [occ] not-found polls seen just before the poll 0. *)
Definition completesAt (f : nat -> poll) (occ i : nat) : Prop :=
  5 <= i + 1 + occ /\
  forall j, j <= i -> i < j + 5 -> f j = PollNotFound.

(** From the start of a wait: the polls [i - 4] to [i] all observe
    not-found, so that the poll [i] ends a run of five. *)
Definition runEndsAt (f : nat -> poll) (i : nat) : Prop :=
  4 <= i /\ forall j, i - 4 <= j <= i -> f j = PollNotFound.

(** The error, if any, of the [n]-th [Get] from now (counting from 0). *)
Definition nthGetError {R} (c : Client R) (id : DiagnosticSettingId) (r : R)
    (n : nat) : option remote_error :=
  snd (fst (clientGet c id (remoteAfter c id r n))).

Module WatchlistVocabulary.
Import securityinsight.

(** From the events [evs] to the events [evs'] nothing happened, or one
    request was prepared and its preparation failed, or one request was
    prepared without error and that request was sent. *)
Definition oneRequestAtMost (ar : Autorest) (evs evs' : list Event) : Prop :=
  evs' = evs \/
  exists req,
    (evs' = (evs ++ [Prepared req])%list /\ Prepare ar req <> None) \/
    (evs' = (evs ++ [Prepared req; Sent req])%list /\ Prepare ar req = None).

(** The error, if there is one, is a detailed error that holds the
    response [resp]. *)
Definition carries (resp : option http_Response) (err : option clientError)
  : Prop :=
  match err with
  | None => True
  | Some (DetailedError _ _ _ resp' _) => resp' = resp
  | Some _ => False
  end.

(** The request goes to the base URI of the client, with the API version
    and with the encoded subscription ID, resource group name and workspace
    name as path parameters. *)
Definition addressed (ar : Autorest) (client : WatchlistsClient)
    (resourceGroupName workspaceName : string) (req : Request) : Prop :=
  BaseURL req = BaseURI client /\
  In ("api-version", "2022-01-01-preview") (QueryParameters req) /\
  In ("subscriptionId", Encode ar "path" (SubscriptionID client))
     (PathParameters req) /\
  In ("resourceGroupName", Encode ar "path" resourceGroupName)
     (PathParameters req) /\
  In ("workspaceName", Encode ar "path" workspaceName) (PathParameters req).

End WatchlistVocabulary.


(** The calls logged between [w] and [w']. *)
Definition callsSince {R} (w w' : World R) (calls : list (Z * Call)) : Prop :=
  wCalls w' = (wCalls w ++ calls)%list.

(** A raw log entry that the expansion accepts: the three keys are present
    with values of the expected types. *)
Definition wellTypedLog (v : gmap string value) : Prop :=
  exists category categoryGroup enabled,
    v !! "category" = Some (VString category) /\
    v !! "category_group" = Some (VString categoryGroup) /\
    v !! "enabled" = Some (VBool enabled).

(** Two raw log entries with the same category, category group and
    enabled flag. *)
Definition sameLogFields (v1 v2 : gmap string value) : Prop :=
  v1 !! "category" = v2 !! "category" /\
  v1 !! "category_group" = v2 !! "category_group" /\
  v1 !! "enabled" = v2 !! "enabled".

(** Neither the category nor the category group of the entry has a dash. *)
Definition dashFree (v : gmap string value) : Prop :=
  forall key s,
    key = "category" \/ key = "category_group" ->
    v !! key = Some (VString s) -> strings.Count s "-" = 0.

(** ** Sample inputs *)

(** Two raw log entries: a category that wins over a category group, and an
    entry with neither. *)
Definition sampleRawLogs : list (gmap string value) :=
  [ {[ "category" := VString "Security";
       "category_group" := VString "allLogs";
       "enabled" := VBool true ]};
    {[ "category" := VString "";
       "category_group" := VString "";
       "enabled" := VBool false ]} ].

Definition sampleLogs : list SubscriptionLogSettings :=
  [ {| Category := Some "Security"; CategoryGroup := None; Enabled := true |};
    {| Category := None; CategoryGroup := Some ""; Enabled := false |} ].

(** A configuration with two log entries, one of them enabled, and two
    destinations. *)
Definition sampleData : ResourceData :=
  {| rdId := "";
     rdIsNewResource := false;
     rdAttrs := {[ "name" := AString "diag";
                   "target_subscription_id" := AString "sub";
                   "storage_account_id" := AString "storage";
                   "log_analytics_workspace_id" := AString "workspace";
                   "log" := ALogs sampleRawLogs ]};
     rdTimeoutDelete := 60 * Minute |}.

(** The same resource once stored, under its composite ID. *)
Definition storedData : ResourceData :=
  {| rdId := "sub|diag";
     rdIsNewResource := false;
     rdAttrs := rdAttrs sampleData;
     rdTimeoutDelete := 60 * Minute |}.

(** A configuration with no log block and no destination. *)
Definition bareData : ResourceData :=
  {| rdId := "";
     rdIsNewResource := false;
     rdAttrs := {[ "name" := AString "diag";
                   "target_subscription_id" := AString "sub" ]};
     rdTimeoutDelete := 60 * Minute |}.

(** Answers of the remote [Get]: the object is not there; the object is
    there; the request succeeded but the response carries no model. *)
Definition notFound : GetOperationResponse * option remote_error :=
  ({| HttpResponse := Some {| StatusCode := 404 |}; Model := None |},
   Some "not found").

Definition found : GetOperationResponse * option remote_error :=
  ({| HttpResponse := Some {| StatusCode := 200 |};
      Model := Some {| Id := Some "id"; Properties := None |} |}, None).

Definition nilModel : GetOperationResponse * option remote_error :=
  ({| HttpResponse := Some {| StatusCode := 200 |}; Model := None |}, None).

(** A remote object that is still found by the first two polls after its
    deletion, and by none after them. *)
Definition disappearing (n : nat) : GetOperationResponse * option remote_error :=
  if (n <? 2)%nat then found else notFound.

(** The sample configuration as a new resource, under an ID without
    separator, and with a name that contains the separator. *)
Definition newData : ResourceData :=
  {| rdId := ""; rdIsNewResource := true; rdAttrs := rdAttrs sampleData;
     rdTimeoutDelete := 60 * Minute |}.

Definition malformedData : ResourceData :=
  {| rdId := "diag"; rdIsNewResource := false; rdAttrs := rdAttrs sampleData;
     rdTimeoutDelete := 60 * Minute |}.

Definition separatorData : ResourceData :=
  {| rdId := "";
     rdIsNewResource := false;
     rdAttrs := {[ "name" := AString "di|ag";
                   "target_subscription_id" := AString "sub";
                   "eventhub_name" := AString "hub";
                   "storage_account_id" := AString "storage";
                   "log" := ALogs sampleRawLogs ]};
     rdTimeoutDelete := 60 * Minute |}.

(** More answers of the remote [Get]: a failure other than not-found,
    and an object with properties. *)
Definition serverError : GetOperationResponse * option remote_error :=
  ({| HttpResponse := Some {| StatusCode := 500 |}; Model := None |},
   Some "internal server error").

Definition remoteProperties : SubscriptionDiagnosticSettings :=
  {| EventHubAuthorizationRuleId := None;
     EventHubName := None;
     Logs := Some sampleLogs;
     StorageAccountId := None;
     WorkspaceId := Some "workspace" |}.

Definition foundWithProperties : GetOperationResponse * option remote_error :=
  ({| HttpResponse := Some {| StatusCode := 200 |};
      Model := Some {| Id := Some "id";
                       Properties := Some remoteProperties |} |}, None).

(** The parameters that create/update sends for the sample configuration. *)
Definition sampleParameters : SubscriptionDiagnosticSettingsResource :=
  {| Id := None;
     Properties := Some (fst (withDestinations sampleData sampleLogs)) |}.

(** A watchlists client, and the request of its [Get]. *)
Definition sampleClient : securityinsight.WatchlistsClient :=
  {| securityinsight.BaseURI := "https://management.azure.com";
     securityinsight.SubscriptionID := "sub" |}.

(** Two raw log entries without dashes. *)
Definition securityLog : gmap string value :=
  {[ "category" := VString "Security";
     "category_group" := VString "";
     "enabled" := VBool true ]}.

Definition allLogsGroup : gmap string value :=
  {[ "category" := VString "";
     "category_group" := VString "allLogs";
     "enabled" := VBool true ]}.

Definition sampleGetRequest : securityinsight.Request :=
  {| securityinsight.Method := "GET";
     securityinsight.ContentType := None;
     securityinsight.BaseURL := "https://management.azure.com";
     securityinsight.Path := securityinsight.watchlistPath;
     securityinsight.PathParameters :=
       [("resourceGroupName", "group"); ("subscriptionId", "sub");
        ("watchlistAlias", "alias"); ("workspaceName", "workspace")];
     securityinsight.QueryParameters := [("api-version", "2022-01-01-preview")];
     securityinsight.Body := None |}.

(** * Properties *)

(** ** Splitting and joining *)

Section SplitFacts.
Variable sep : ascii.

Lemma Split_not_nil (s : string) : strings.Split s sep <> [].
Proof.
  destruct s as [|c rest]; simpl; [discriminate|].
  destruct (Ascii.eqb c sep); [discriminate|].
  destruct (strings.Split rest sep); discriminate.
Qed.

Lemma Split_length (s : string) :
  length (strings.Split s sep) = S (strings.Count s sep).
Proof.
  induction s as [|c rest IH]; simpl; [reflexivity|].
  destruct (Ascii.eqb c sep); simpl.
  - now rewrite IH.
  - destruct (strings.Split rest sep) as [|seg segs] eqn:E; simpl in *;
      [discriminate | exact IH].
Qed.

Lemma Count_app (a b : string) :
  strings.Count (a ++ b) sep = strings.Count a sep + strings.Count b sep.
Proof.
  induction a as [|c a IH]; simpl; [reflexivity|].
  rewrite IH. lia.
Qed.

Lemma Contains_false (s : string) :
  strings.Contains s sep = false <-> strings.Count s sep = 0.
Proof.
  unfold strings.Contains.
  destruct (Nat.eqb_spec (strings.Count s sep) 0); simpl; split;
    congruence.
Qed.

(** A string without the separator is its own single segment. *)
Lemma Split_no_sep (s : string) :
  strings.Count s sep = 0 -> strings.Split s sep = [s].
Proof.
  induction s as [|c rest IH]; simpl; [reflexivity|].
  destruct (Ascii.eqb c sep); [discriminate|].
  simpl. intros H. now rewrite (IH H).
Qed.

(** Splitting [a ++ sep ++ b], where [a] has no separator, cuts [a] off. *)
Lemma Split_app_sep (a b : string) :
  strings.Count a sep = 0 ->
  strings.Split (a ++ String sep b) sep = a :: strings.Split b sep.
Proof.
  induction a as [|c a IH]; simpl.
  - intros _. now rewrite Ascii.eqb_refl.
  - destruct (Ascii.eqb c sep); [discriminate|].
    simpl. intros H. now rewrite (IH H).
Qed.

(** No segment contains the separator. *)
Lemma Split_segments (s : string) :
  Forall (fun seg => strings.Count seg sep = 0) (strings.Split s sep).
Proof.
  induction s as [|c rest IH]; simpl.
  - repeat constructor.
  - destruct (Ascii.eqb c sep) eqn:E.
    + constructor; [reflexivity | exact IH].
    + destruct (strings.Split rest sep) as [|seg segs].
      * repeat constructor. simpl. now rewrite E.
      * inversion IH; subst. constructor; [|assumption].
        simpl. now rewrite E.
Qed.

(** Joining the segments with the separator gives the string back. *)
Lemma Join_Split (s : string) : strings.Join (strings.Split s sep) sep = s.
Proof.
  induction s as [|c rest IH]; simpl; [reflexivity|].
  destruct (Ascii.eqb_spec c sep) as [->|Hne].
  - pose proof (Split_not_nil rest) as Hnil.
    destruct (strings.Split rest sep) as [|seg segs]; [congruence|].
    simpl in *. now rewrite IH.
  - destruct (strings.Split rest sep) as [|seg segs] eqn:E.
    + now destruct (Split_not_nil rest).
    + destruct segs; simpl in *; now rewrite <- IH.
Qed.
End SplitFacts.

(** ** The composite resource ID *)

(** The parser on an ID of the stored form. *)
Lemma parse_formatted (subscriptionID name : string) :
  strings.Count subscriptionID "|" = 0 ->
  strings.Count name "|" = 0 ->
  ParseMonitorSubscriptionDiagnosticId (formatResourceId subscriptionID name)
  = Ok {| SubscriptionId := subscriptionID; Name := name |}.
Proof.
  intros Hs Hn. unfold ParseMonitorSubscriptionDiagnosticId, formatResourceId.
  change ("|" ++ name) with (String "|" name).
  rewrite (Split_app_sep "|" _ _ Hs), (Split_no_sep "|" _ Hn).
  reflexivity.
Qed.

(** What a successful parse says about the string parsed. *)
Lemma parse_ok_inv (monitorId : string) (id : DiagnosticSettingId) :
  ParseMonitorSubscriptionDiagnosticId monitorId = Ok id ->
  monitorId = SubscriptionId id ++ "|" ++ Name id /\
  strings.Count (SubscriptionId id) "|" = 0 /\
  strings.Count (Name id) "|" = 0.
Proof.
  unfold ParseMonitorSubscriptionDiagnosticId.
  pose proof (Join_Split "|" monitorId) as HJ.
  pose proof (Split_segments "|" monitorId) as HF.
  destruct (strings.Split monitorId "|") as [|v0 [|v1 [|v2 vs]]];
    try discriminate.
  intros [= <-]. simpl in *.
  inversion HF as [|? ? H0 HF']; subst. inversion HF' as [|? ? H1 ?]; subst.
  auto.
Qed.

(** C5: for every subscription identifier and setting name without the byte
    '|', parsing the resource ID that create/update stores,
    "{subscriptionId}|{name}", succeeds and returns exactly that subscription
    identifier as [SubscriptionId] and that name as [Name]. *)
Theorem resource_id_round_trip (subscriptionID name : string) :
  strings.Contains subscriptionID "|" = false ->
  strings.Contains name "|" = false ->
  ParseMonitorSubscriptionDiagnosticId (formatResourceId subscriptionID name)
  = Ok (NewDiagnosticSettingID subscriptionID name).
Proof.
  intros Hs Hn. apply Contains_false in Hs, Hn.
  now apply parse_formatted.
Qed.

Lemma resource_id_round_trip_witness :
  ParseMonitorSubscriptionDiagnosticId
    (formatResourceId "00000000-0000-0000-0000-000000000000" "diag-1")
  = Ok (NewDiagnosticSettingID "00000000-0000-0000-0000-000000000000" "diag-1").
Proof.
  apply (resource_id_round_trip "00000000-0000-0000-0000-000000000000" "diag-1");
    reflexivity.
Defined.

(** C6: for every input string the parser returns an error if and only if
    splitting the string on '|' does not yield exactly two segments, that is,
    if and only if the string does not contain exactly one '|'; when it
    succeeds, [SubscriptionId] is the text before the separator and [Name]
    the text after it; neither segment is validated: whatever the two
    segments are, even empty, the parse succeeds. *)
Theorem parse_error_iff_not_two_segments (monitorId : string) :
  ((exists err, ParseMonitorSubscriptionDiagnosticId monitorId = Err err)
   <-> length (strings.Split monitorId "|") <> 2) /\
  (length (strings.Split monitorId "|") <> 2
   <-> strings.Count monitorId "|" <> 1) /\
  (forall id,
     ParseMonitorSubscriptionDiagnosticId monitorId = Ok id ->
     monitorId = SubscriptionId id ++ "|" ++ Name id /\
     strings.Contains (SubscriptionId id) "|" = false /\
     strings.Contains (Name id) "|" = false) /\
  (forall before after,
     strings.Contains before "|" = false ->
     strings.Contains after "|" = false ->
     monitorId = before ++ "|" ++ after ->
     ParseMonitorSubscriptionDiagnosticId monitorId
     = Ok {| SubscriptionId := before; Name := after |}) /\
  ParseMonitorSubscriptionDiagnosticId "|"
  = Ok {| SubscriptionId := ""; Name := "" |}.
Proof.
  repeat split.
  - intros [err H]. unfold ParseMonitorSubscriptionDiagnosticId in H.
    destruct (strings.Split monitorId "|") as [|v0 [|v1 [|v2 vs]]];
      simpl; try discriminate; lia.
  - intros H. unfold ParseMonitorSubscriptionDiagnosticId.
    destruct (strings.Split monitorId "|") as [|v0 [|v1 [|v2 vs]]];
      simpl in *; eauto; lia.
  - rewrite Split_length. lia.
  - rewrite Split_length. lia.
  - now apply parse_ok_inv.
  - apply Contains_false. now destruct (parse_ok_inv _ _ H) as (_ & ? & _).
  - apply Contains_false. now destruct (parse_ok_inv _ _ H) as (_ & _ & ?).
  - intros before after Hb Ha ->. apply Contains_false in Hb, Ha.
    now apply parse_formatted.
Qed.

Lemma parse_error_iff_not_two_segments_witness :
  ParseMonitorSubscriptionDiagnosticId "sub|diag"
  = Ok {| SubscriptionId := "sub"; Name := "diag" |}.
Proof.
  destruct (parse_error_iff_not_two_segments "sub|diag")
    as (_ & _ & _ & H & _).
  apply (H "sub" "diag"); reflexivity.
Defined.

(** ** Expanding and flattening the log entries *)

Lemma expandLogEntry_expandsTo (v : gmap string value)
    (o : SubscriptionLogSettings) :
  expandLogEntry v = Some o -> expandsTo v o.
Proof.
  unfold expandLogEntry, expandsTo.
  destruct (v !! "category") as [[category|]|]; try discriminate.
  destruct (v !! "category_group") as [[categoryGroup|]|]; try discriminate.
  destruct (v !! "enabled") as [[|enabled]|]; try discriminate.
  simpl. intros [= <-]. exists category, categoryGroup, enabled.
  destruct (String.eqb_spec category ""); simpl; repeat split; congruence.
Qed.

(** The loop appends, to the entries expanded so far, the expansion of each
    raw entry in order; it panics as soon as one entry is malformed. *)
Lemma expandLogsLoop_spec (input : list (gmap string value)) :
  forall results logs,
    expandLogsLoop input results = Some logs ->
    exists outs,
      logs = (results ++ outs)%list /\
      Forall2 (fun v o => expandLogEntry v = Some o) input outs.
Proof.
  induction input as [|raw input IH]; simpl; intros results logs H.
  - injection H as <-. exists []. split; [now rewrite app_nil_r | constructor].
  - destruct (expandLogEntry raw) as [output|] eqn:E; simpl in H;
      [|discriminate].
    destruct (IH _ _ H) as (outs & -> & HF).
    exists (output :: outs). split.
    + now rewrite <- app_assoc.
    + now constructor.
Qed.

Lemma expand_spec (input : list (gmap string value))
    (logs : list SubscriptionLogSettings) :
  expandSubscriptionMonitorDiagnosticsSettingsLogs input = Some logs ->
  Forall2 (fun v o => expandLogEntry v = Some o) input logs.
Proof.
  intros H. apply expandLogsLoop_spec in H as (outs & -> & HF). exact HF.
Qed.

Lemma flattenLogsLoop_spec (input : list SubscriptionLogSettings) :
  forall results,
    flattenLogsLoop input results
    = (results ++ map flattenLogEntry input)%list.
Proof.
  induction input as [|v input IH]; simpl; intros results.
  - now rewrite app_nil_r.
  - now rewrite IH, <- app_assoc.
Qed.

Lemma flatten_expanded_entry (v : gmap string value)
    (o : SubscriptionLogSettings) :
  expandLogEntry v = Some o -> roundTripsTo v (flattenLogEntry o).
Proof.
  unfold expandLogEntry, roundTripsTo, flattenLogEntry.
  destruct (v !! "category") as [[category|]|]; try discriminate.
  destruct (v !! "category_group") as [[categoryGroup|]|]; try discriminate.
  destruct (v !! "enabled") as [[|enabled]|]; try discriminate.
  simpl. intros [= <-].
  destruct (String.eqb_spec category "") as [->|Hne]; simpl;
    repeat split; intros; simplify_map_eq; congruence.
Qed.

(** C9: every element produced by the expansion has exactly one of the
    fields [Category] and [CategoryGroup] non-nil: for an entry whose category
    string is not empty, [Category] is that string and [CategoryGroup] is nil,
    whatever the category group; for an entry whose category is empty,
    [CategoryGroup] is the category-group string, even an empty one, and
    [Category] is nil. *)
Theorem expand_sets_exactly_one_category_field
    (input : list (gmap string value)) (logs : list SubscriptionLogSettings) :
  expandSubscriptionMonitorDiagnosticsSettingsLogs input = Some logs ->
  Forall2 expandsTo input logs /\
  Forall (fun o => xorb (isNil (Category o)) (isNil (CategoryGroup o)) = true)
         logs.
Proof.
  intros H. apply expand_spec in H.
  assert (HF : Forall2 expandsTo input logs).
  { eapply Forall2_impl; [exact H|]. apply expandLogEntry_expandsTo. }
  split; [exact HF|].
  clear H. induction HF as [|v o input logs Hvo _ IH]; constructor; [|exact IH].
  destruct Hvo as (category & categoryGroup & enabled & _ & _ & _ & _ & Hc & Hg).
  destruct (String.eqb_spec category "") as [E|E].
  - destruct (Hg E) as [-> ->]. reflexivity.
  - destruct (Hc E) as [-> ->]. reflexivity.
Qed.

Lemma expand_sets_exactly_one_category_field_witness :
  Forall2 expandsTo sampleRawLogs sampleLogs /\
  Forall (fun o => xorb (isNil (Category o)) (isNil (CategoryGroup o)) = true)
         sampleLogs.
Proof.
  apply (expand_sets_exactly_one_category_field sampleRawLogs sampleLogs).
  vm_compute. reflexivity.
Defined.

(** C7: for every list of log entries, flattening the result of the
    expansion yields one entry per input entry, in the same order, each with
    the enabled flag of its input entry; the category of an entry is kept
    when it is not empty, and otherwise its category group is kept; an entry
    never carries both after the round trip. *)
Theorem flatten_expand_round_trip
    (input : list (gmap string value)) (logs : list SubscriptionLogSettings) :
  expandSubscriptionMonitorDiagnosticsSettingsLogs input = Some logs ->
  length (flattenMonitorSubscriptionDiagnosticLogs (Some logs)) = length input /\
  Forall2 roundTripsTo input (flattenMonitorSubscriptionDiagnosticLogs (Some logs)).
Proof.
  intros H. apply expand_spec in H.
  unfold flattenMonitorSubscriptionDiagnosticLogs.
  rewrite flattenLogsLoop_spec. simpl.
  assert (HF : Forall2 roundTripsTo input (map flattenLogEntry logs)).
  { induction H as [|v o input logs Hvo _ IH]; simpl; constructor;
      [now apply flatten_expanded_entry | exact IH]. }
  split; [|exact HF].
  symmetry. eapply Forall2_length. exact HF.
Qed.

Lemma flatten_expand_round_trip_witness :
  length (flattenMonitorSubscriptionDiagnosticLogs (Some sampleLogs))
  = length sampleRawLogs /\
  Forall2 roundTripsTo sampleRawLogs
          (flattenMonitorSubscriptionDiagnosticLogs (Some sampleLogs)).
Proof.
  apply (flatten_expand_round_trip sampleRawLogs sampleLogs).
  vm_compute. reflexivity.
Defined.

(** ** Create/update *)

Section CreateUpdateFacts.
Context {R : Type} (env : Env R).

Lemma createUpdate_unfold (w : World R) :
  resourceMonitorSubscriptionDiagnosticSettingCreateUpdate env w =
  let d := wData w in
  let id := configuredId d in
  match (if rdIsNewResource d then checkNotPresent env id w else (Val None, w)) with
  | (Val (Some err), w1) => (Val (Some err), w1)
  | (Val None, w1) =>
      match expandSubscriptionMonitorDiagnosticsSettingsLogs (getLogList d) with
      | None => (Panic, w1)
      | Some logs =>
          if Nat.eqb (length logs) 0 then (Val (Some ErrNoLogBlock), w1)
          else if negb (anyEnabled logs) then (Val (Some ErrNoLogEnabled), w1)
          else createAndRead env d (getString d "name")
                 (getString d "target_subscription_id") id logs w1
      end
  | (Panic, w1) => (Panic, w1)
  end.
Proof.
  unfold resourceMonitorSubscriptionDiagnosticSettingCreateUpdate.
  unfold bind at 1. unfold getData at 1. cbv zeta.
  unfold bind at 1.
  destruct (rdIsNewResource (wData w)).
  - fold (configuredId (wData w)).
    destruct (checkNotPresent env (configuredId (wData w)) w) as [[[err|]|] w1];
      try reflexivity.
    unfold bind, deref.
    destruct (expandSubscriptionMonitorDiagnosticsSettingsLogs _) as [logs|];
      [|reflexivity].
    unfold ret. destruct (Nat.eqb (length logs) 0); [reflexivity|].
    destruct (negb (anyEnabled logs)); reflexivity.
  - unfold ret at 1. fold (configuredId (wData w)).
    unfold bind, deref.
    destruct (expandSubscriptionMonitorDiagnosticsSettingsLogs _) as [logs|];
      [|reflexivity].
    unfold ret. destruct (Nat.eqb (length logs) 0); [reflexivity|].
    destruct (negb (anyEnabled logs)); reflexivity.
Qed.

Lemma checkNotPresent_spec (id : DiagnosticSettingId) (w : World R) :
  exists r w1,
    checkNotPresent env id w = (Val r, w1) /\
    wData w1 = wData w /\
    wCalls w1 = (wCalls w ++ [(wClock w, CallGet id)])%list /\
    wClock w1 = wClock w /\
    wRemote w1 = snd (clientGet (client env) id (wRemote w)) /\
    (forall e, r = Some e -> isLogError e = false /\ e <> ErrNoDestination).
Proof.
  unfold checkNotPresent, client_Get, bind, logCall, remote, ret. simpl.
  destruct (clientGet (client env) id (wRemote w)) as [[existing err] r1].
  simpl.
  destruct err as [e|];
    [destruct (negb (WasNotFound (HttpResponse existing)))|];
    try destruct (existingModelId existing);
    eexists _, _; repeat (split; [reflexivity|]);
    intros ? [=]; subst; split; done.
Qed.

Lemma parse_error_shape (s : string) (e : error) :
  ParseMonitorSubscriptionDiagnosticId s = Err e ->
  e = ErrIdSegments (length (strings.Split s "|")).
Proof.
  unfold ParseMonitorSubscriptionDiagnosticId.
  destruct (strings.Split s "|") as [|v0 [|v1 [|v2 vs]]]; simpl; congruence.
Qed.

Lemma read_benign (w : World R) :
  benign (fst (resourceMonitorSubscriptionDiagnosticSettingRead env w)).
Proof.
  unfold resourceMonitorSubscriptionDiagnosticSettingRead, readProperties,
    client_Get, d_Set, d_SetId, bind, getData, putData, logCall, remote, ret.
  simpl.
  destruct (ParseMonitorSubscriptionDiagnosticId (rdId (wData w))) as [id|e0] eqn:P.
  2:{ apply parse_error_shape in P as ->. intros ? [= <-]. split; done. }
  repeat (case_match; simpl in *; simplify_eq; try (intros ? [=]; subst; split; done)).
Qed.

Lemma read_calls (w : World R) :
  noCreateOrUpdateSince w (snd (resourceMonitorSubscriptionDiagnosticSettingRead env w)).
Proof.
  unfold resourceMonitorSubscriptionDiagnosticSettingRead, readProperties,
    client_Get, d_Set, d_SetId, bind, getData, putData, logCall, remote, ret.
  simpl.
  repeat (case_match; simpl in *; simplify_eq);
    try (exists []; split; [now rewrite app_nil_r | constructor]);
    (eexists [_]; split; [reflexivity | repeat constructor]).
Qed.

Lemma anyEnabled_true (logs : list SubscriptionLogSettings) :
  anyEnabled logs = true <-> Exists (fun v => Enabled v = true) logs.
Proof.
  induction logs as [|v logs IH]; simpl.
  - split; [discriminate | intros H; inversion H].
  - destruct (Enabled v) eqn:E.
    + split; [intros _; now left | reflexivity].
    + rewrite IH. split; [now right|].
      intros H. inversion H; subst; [congruence | assumption].
Qed.

Lemma anyEnabled_false (logs : list SubscriptionLogSettings) :
  anyEnabled logs = false <-> Forall (fun v => Enabled v = false) logs.
Proof.
  induction logs as [|v logs IH]; simpl.
  - split; [constructor | reflexivity].
  - destruct (Enabled v) eqn:E.
    + split; [discriminate|]. intros H. inversion H; subst. congruence.
    + rewrite IH. split; [now constructor|]. intros H. now inversion H.
Qed.

Lemma createAndRead_benign_logs (d : ResourceData) (name subscriptionID : string)
    (id : DiagnosticSettingId) (logs : list SubscriptionLogSettings)
    (w : World R) (e : error) :
  fst (createAndRead env d name subscriptionID id logs w) = Val (Some e) ->
  isLogError e = false.
Proof.
  unfold createAndRead.
  destruct (withDestinations d logs) as [properties valid].
  destruct valid; simpl; [|intros [= <-]; reflexivity].
  unfold client_CreateOrUpdate, client_Get, cannotReadIdGuard, deref, d_SetId,
    bind, getData, putData, logCall, remote, ret, panic. simpl.
  repeat (case_match; simpl in *; simplify_eq; try (intros [=]; subst; done)).
  intros H. eapply read_benign. exact H.
Qed.

Lemma noCreateOrUpdateSince_refl (w : World R) : noCreateOrUpdateSince w w.
Proof. exists []. split; [now rewrite app_nil_r | constructor]. Qed.

(** C1: create/update returns an error, and sends no [CreateOrUpdate] to the
    remote service, whenever the expanded list of log entries is empty, and
    also whenever it is not empty but no entry is enabled (for a resource that
    is not new the error is the one about the missing log block, respectively
    about the missing enabled log); when one entry at least is enabled,
    neither of these two errors is returned. *)
Theorem create_update_requires_enabled_log (w : World R)
    (logs : list SubscriptionLogSettings) :
  expandSubscriptionMonitorDiagnosticsSettingsLogs (getLogList (wData w))
    = Some logs ->
  let result := resourceMonitorSubscriptionDiagnosticSettingCreateUpdate env w in
  (logs = [] ->
     (exists e, fst result = Val (Some e)) /\
     noCreateOrUpdateSince w (snd result) /\
     (rdIsNewResource (wData w) = false ->
      fst result = Val (Some ErrNoLogBlock))) /\
  (logs <> [] -> Forall (fun v => Enabled v = false) logs ->
     (exists e, fst result = Val (Some e)) /\
     noCreateOrUpdateSince w (snd result) /\
     (rdIsNewResource (wData w) = false ->
      fst result = Val (Some ErrNoLogEnabled))) /\
  (Exists (fun v => Enabled v = true) logs ->
     fst result <> Val (Some ErrNoLogBlock) /\
     fst result <> Val (Some ErrNoLogEnabled)).
Proof.
  intros Hexp result. subst result. rewrite createUpdate_unfold. cbv zeta.
  rewrite Hexp.
  assert (Hpre : exists r w1,
             (if rdIsNewResource (wData w)
              then checkNotPresent env (configuredId (wData w)) w
              else (Val None, w)) = (Val r, w1) /\
             noCreateOrUpdateSince w w1 /\
             (rdIsNewResource (wData w) = false -> r = None) /\
             (forall e, r = Some e -> isLogError e = false)).
  { destruct (rdIsNewResource (wData w)).
    - destruct (checkNotPresent_spec (configuredId (wData w)) w)
        as (r & w1 & -> & _ & Hc & _ & _ & He).
      exists r, w1. repeat (split; [try reflexivity|]).
      + eexists [_]. split; [exact Hc | repeat constructor].
      + discriminate.
      + intros e Hr. now destruct (He e Hr).
    - exists None, w. repeat (split; [try reflexivity|]).
      + apply noCreateOrUpdateSince_refl.
      + discriminate. }
  destruct Hpre as (r & w1 & -> & Hcalls & Hnew & Herr).
  split; [|split].
  - intros ->. simpl. destruct r as [e|]; simpl.
    + split; [eauto|]. split; [exact Hcalls|].
      intros Hn. now specialize (Hnew Hn).
    + split; [eauto|]. split; [exact Hcalls | reflexivity].
  - intros Hne Hall. apply anyEnabled_false in Hall.
    destruct r as [e|]; simpl.
    + split; [eauto|]. split; [exact Hcalls|].
      intros Hn. now specialize (Hnew Hn).
    + destruct logs as [|v logs]; [congruence|]. cbn [length Nat.eqb].
      rewrite Hall. simpl. split; [eauto|]. split; [exact Hcalls | reflexivity].
  - intros Hex. apply anyEnabled_true in Hex.
    destruct r as [e|]; simpl.
    + specialize (Herr e eq_refl).
      split; intros [= ->]; discriminate.
    + destruct logs as [|v logs]; [discriminate|]. cbn [length Nat.eqb].
      rewrite Hex. simpl.
      split; intros H; apply createAndRead_benign_logs in H; discriminate.
Qed.

Lemma withDestinations_valid (d : ResourceData)
    (logs : list SubscriptionLogSettings) :
  snd (withDestinations d logs) = false <-> noDestination d.
Proof.
  unfold withDestinations, noDestination.
  destruct (String.eqb_spec (getString d "eventhub_authorization_rule_id") "");
  destruct (String.eqb_spec (getString d "log_analytics_workspace_id") "");
  destruct (String.eqb_spec (getString d "storage_account_id") "");
    simpl; split; try discriminate; try tauto; auto.
Qed.

Lemma withDestinations_properties (d : ResourceData)
    (logs : list SubscriptionLogSettings) :
  let properties := fst (withDestinations d logs) in
  EventHubAuthorizationRuleId properties
    = ptrIfSet (getString d "eventhub_authorization_rule_id") /\
  WorkspaceId properties = ptrIfSet (getString d "log_analytics_workspace_id") /\
  StorageAccountId properties = ptrIfSet (getString d "storage_account_id") /\
  Logs properties = Some logs.
Proof.
  unfold withDestinations, ptrIfSet.
  destruct (String.eqb (getString d "eventhub_authorization_rule_id") "");
  destruct (String.eqb (getString d "log_analytics_workspace_id") "");
  destruct (String.eqb (getString d "storage_account_id") "");
    simpl; auto.
Qed.

Lemma createAndRead_no_destination (d : ResourceData)
    (name subscriptionID : string) (id : DiagnosticSettingId)
    (logs : list SubscriptionLogSettings) (w : World R) :
  fst (createAndRead env d name subscriptionID id logs w)
    = Val (Some ErrNoDestination)
  <-> snd (withDestinations d logs) = false.
Proof.
  unfold createAndRead.
  destruct (withDestinations d logs) as [properties valid].
  destruct valid; simpl; [|tauto].
  split; [|discriminate].
  unfold client_CreateOrUpdate, client_Get, cannotReadIdGuard, deref, d_SetId,
    bind, getData, putData, logCall, remote, ret, panic. simpl.
  repeat (case_match; simpl in *; simplify_eq; try (intros [=]; subst; done)).
  intros H. apply read_benign in H. now destruct H.
Qed.

Lemma createAndRead_sends (d : ResourceData)
    (name subscriptionID : string) (id : DiagnosticSettingId)
    (logs : list SubscriptionLogSettings) (w : World R) :
  snd (withDestinations d logs) = true ->
  exists calls,
    wCalls (snd (createAndRead env d name subscriptionID id logs w))
    = (wCalls w
       ++ (wClock w,
           CallCreateOrUpdate id
             {| Id := None;
                Properties := Some (fst (withDestinations d logs)) |})
       :: calls)%list.
Proof.
  unfold createAndRead.
  destruct (withDestinations d logs) as [properties valid].
  simpl. intros ->. simpl.
  unfold client_CreateOrUpdate, client_Get, cannotReadIdGuard, deref, d_SetId,
    bind, getData, putData, logCall, remote, ret, panic. simpl.
  repeat (case_match; simpl in *; simplify_eq);
    try (eexists; rewrite <- app_assoc; reflexivity);
    try (eexists; reflexivity).
  match goal with
  | |- context [resourceMonitorSubscriptionDiagnosticSettingRead env ?w0] =>
      destruct (read_calls w0) as (calls & -> & _)
  end.
  simpl. eexists. rewrite <- !app_assoc. reflexivity.
Qed.

(** C2, as amended: create/update returns the error that demands a
    destination if and only if it gets as far as the destination check (no
    existing remote object stands in the way of a new resource, and one log
    entry at least is enabled) and all three of
    [eventhub_authorization_rule_id], [log_analytics_workspace_id] and
    [storage_account_id] are empty strings. A configuration that gets as far
    and has one destination or more is not rejected: [CreateOrUpdate] is sent
    with every destination that is not empty, so that the destinations do
    not exclude one another. *)
Theorem destination_error_iff_none_set (w : World R) :
  let d := wData w in
  let result := resourceMonitorSubscriptionDiagnosticSettingCreateUpdate env w in
  (fst result = Val (Some ErrNoDestination)
   <-> (exists w1 logs, reachesDestinationCheck env w w1 logs)
       /\ noDestination d) /\
  (forall w1 logs,
     reachesDestinationCheck env w w1 logs -> ~ noDestination d ->
     exists properties,
       In (wClock w1,
           CallCreateOrUpdate (configuredId d)
             {| Id := None; Properties := Some properties |})
          (wCalls (snd result)) /\
       EventHubAuthorizationRuleId properties
         = ptrIfSet (getString d "eventhub_authorization_rule_id") /\
       WorkspaceId properties
         = ptrIfSet (getString d "log_analytics_workspace_id") /\
       StorageAccountId properties
         = ptrIfSet (getString d "storage_account_id")).
Proof.
  intros d result. subst d result.
  rewrite createUpdate_unfold. cbv zeta.
  unfold reachesDestinationCheck.
  split.
  - split.
    + intros H.
      destruct (rdIsNewResource (wData w)).
      * destruct (checkNotPresent_spec (configuredId (wData w)) w)
          as (r & w1 & E & _ & _ & _ & _ & He).
        rewrite E in H |- *.
        destruct r as [e|]; [simpl in H; injection H as ->;
                             now destruct (He _ eq_refl)|].
        destruct (expandSubscriptionMonitorDiagnosticsSettingsLogs _)
          as [logs|]; [|discriminate].
        destruct logs as [|v logs]; [discriminate|]. cbn [length Nat.eqb] in H.
        destruct (anyEnabled (v :: logs)) eqn:A; [|discriminate].
        cbn [negb] in H. apply createAndRead_no_destination in H.
        apply withDestinations_valid in H.
        split; [|exact H]. exists w1, (v :: logs). auto.
      * destruct (expandSubscriptionMonitorDiagnosticsSettingsLogs _)
          as [logs|]; [|discriminate].
        destruct logs as [|v logs]; [discriminate|]. cbn [length Nat.eqb] in H.
        destruct (anyEnabled (v :: logs)) eqn:A; [|discriminate].
        cbn [negb] in H. apply createAndRead_no_destination in H.
        apply withDestinations_valid in H.
        split; [|exact H]. exists w, (v :: logs). auto.
    + intros [(w1 & logs & Hpre & -> & A) Hd].
      assert (E : (if rdIsNewResource (wData w)
                   then checkNotPresent env (configuredId (wData w)) w
                   else (Val None, w)) = (Val None, w1)).
      { destruct (rdIsNewResource (wData w)); congruence. }
      rewrite E.
      destruct logs as [|v logs]; [discriminate|]. cbn [length Nat.eqb].
      rewrite A. cbn [negb].
      apply createAndRead_no_destination, withDestinations_valid, Hd.
  - intros w1 logs (Hpre & -> & A) Hd.
    assert (E : (if rdIsNewResource (wData w)
                 then checkNotPresent env (configuredId (wData w)) w
                 else (Val None, w)) = (Val None, w1)).
    { destruct (rdIsNewResource (wData w)); congruence. }
    rewrite E.
    destruct logs as [|v logs]; [discriminate|]. cbn [length Nat.eqb].
    rewrite A. cbn [negb].
    assert (V : snd (withDestinations (wData w) (v :: logs)) = true).
    { destruct (snd (withDestinations (wData w) (v :: logs))) eqn:V;
        [reflexivity|]. apply withDestinations_valid in V. contradiction. }
    destruct (createAndRead_sends (wData w) (getString (wData w) "name")
                (getString (wData w) "target_subscription_id")
                (configuredId (wData w)) (v :: logs) w1 V) as (calls & ->).
    exists (fst (withDestinations (wData w) (v :: logs))).
    split.
    + apply in_or_app. right. now left.
    + pose proof (withDestinations_properties (wData w) (v :: logs)) as P.
      cbv zeta in P. tauto.
Qed.
End CreateUpdateFacts.

Lemma create_update_requires_enabled_log_witness :
  let result :=
    resourceMonitorSubscriptionDiagnosticSettingCreateUpdate
      (scriptedEnv (fun _ => found) None (None, None))
      (initialWorld sampleData) in
  fst result <> Val (Some ErrNoLogBlock) /\
  fst result <> Val (Some ErrNoLogEnabled).
Proof.
  assert (H : expandSubscriptionMonitorDiagnosticsSettingsLogs
                (getLogList (wData (initialWorld sampleData)))
              = Some sampleLogs) by (vm_compute; reflexivity).
  destruct (create_update_requires_enabled_log
              (scriptedEnv (fun _ => found) None (None, None))
              (initialWorld sampleData) sampleLogs H) as (_ & _ & H3).
  apply H3. apply Exists_cons_hd. reflexivity.
Defined.

(** The claim C2 as it is stated fails on a configuration with no log
    block and no destination: all three destination attributes are empty, and
    the error returned is the one about the log block. *)
Lemma destination_error_without_logs_counterexample :
  ~ (fst (resourceMonitorSubscriptionDiagnosticSettingCreateUpdate
            (scriptedEnv (fun _ => found) None (None, None))
            (initialWorld bareData)) = Val (Some ErrNoDestination)
     <-> noDestination (wData (initialWorld bareData))).
Proof.
  intros [_ H].
  assert (Hd : noDestination (wData (initialWorld bareData)))
    by (vm_compute; auto).
  specialize (H Hd). vm_compute in H. discriminate.
Qed.

Lemma destination_error_iff_none_set_witness :
  exists properties,
    In (0%Z,
        CallCreateOrUpdate (NewDiagnosticSettingID "sub" "diag")
          {| Id := None; Properties := Some properties |})
       (wCalls (snd (resourceMonitorSubscriptionDiagnosticSettingCreateUpdate
                       (scriptedEnv (fun _ => found) None (None, None))
                       (initialWorld sampleData)))) /\
    WorkspaceId properties = Some "workspace" /\
    StorageAccountId properties = Some "storage".
Proof.
  destruct (destination_error_iff_none_set
              (scriptedEnv (fun _ => found) None (None, None))
              (initialWorld sampleData)) as [_ H].
  destruct (H (initialWorld sampleData) sampleLogs) as (properties & HIn & _ & Hw & Hs).
  - split; [reflexivity|]. split; [vm_compute; reflexivity | reflexivity].
  - intros (_ & Hw & _). vm_compute in Hw. discriminate.
  - exists properties. split; [exact HIn|]. split; [exact Hw | exact Hs].
Defined.

(** ** Read, and the guard after the creation *)

Section ReadFacts.
Context {R : Type} (env : Env R).

(** C10: when the remote [Get] of the read function fails with a not-found
    response, the function sets the resource ID to the empty string and
    returns nil, not an error; for any other failure of the [Get] it returns
    an error and leaves the resource data, attributes and ID, as they were. *)
Theorem read_not_found_clears_id (w : World R) (id : DiagnosticSettingId)
  (resp : GetOperationResponse) (e : remote_error) (r' : R) :
ParseMonitorSubscriptionDiagnosticId (rdId (wData w)) = Ok id ->
clientGet (client env) id (wRemote w) = ((resp, Some e), r') ->
let result := resourceMonitorSubscriptionDiagnosticSettingRead env w in
(WasNotFound (HttpResponse resp) = true ->
   fst result = Val None /\
   rdId (wData (snd result)) = "" /\
   rdAttrs (wData (snd result)) = rdAttrs (wData w)) /\
(WasNotFound (HttpResponse resp) = false ->
   fst result = Val (Some (ErrRetrieving (Name id) (SubscriptionId id) e)) /\
   wData (snd result) = wData w).
Proof.
intros Hid Hget result.
assert (E : result =
            if WasNotFound (HttpResponse resp)
            then (Val None,
                  {| wData := {| rdId := "";
                                 rdIsNewResource := rdIsNewResource (wData w);
                                 rdAttrs := rdAttrs (wData w);
                                 rdTimeoutDelete := rdTimeoutDelete (wData w) |};
                     wRemote := r';
                     wCalls := (wCalls w ++ [(wClock w, CallGet id)])%list;
                     wClock := wClock w |})
            else (Val (Some (ErrRetrieving (Name id) (SubscriptionId id) e)),
                  {| wData := wData w;
                     wRemote := r';
                     wCalls := (wCalls w ++ [(wClock w, CallGet id)])%list;
                     wClock := wClock w |})).
{ subst result. unfold resourceMonitorSubscriptionDiagnosticSettingRead.
  unfold bind at 1, getData at 1. rewrite Hid.
  unfold client_Get, d_SetId, bind, getData, putData, logCall, remote, ret.
  simpl. rewrite Hget.
  destruct (WasNotFound (HttpResponse resp)); reflexivity. }
rewrite E. split; intros ->; simpl; auto.
Qed.

Lemma cannotReadIdGuard_spec (read : GetOperationResponse) (w : World R) :
cannotReadIdGuard read w
= (match Model read with None => Panic | Some _ => Val false end, w).
Proof.
unfold cannotReadIdGuard. destruct (Model read); reflexivity.
Qed.
End ReadFacts.

Lemma read_not_found_clears_id_witness :
  let result :=
    resourceMonitorSubscriptionDiagnosticSettingRead
      (scriptedEnv (fun _ => notFound) None (None, None))
      (initialWorld storedData) in
  fst result = Val None /\
  rdId (wData (snd result)) = "" /\
  rdAttrs (wData (snd result)) = rdAttrs storedData.
Proof.
  destruct (read_not_found_clears_id
              (scriptedEnv (fun _ => notFound) None (None, None))
              (initialWorld storedData)
              (NewDiagnosticSettingID "sub" "diag")
              (fst notFound) "not found" 1 eq_refl eq_refl) as [H _].
  exact (H eq_refl).
Defined.

(** C3, which the code breaks: the guard on the result of the follow-up
    [Get] dereferences the nil pointer whenever the response has no model, so
    that it panics there; it never yields the "Cannot read ID" error; and
    create/update panics on a remote service that answers the follow-up [Get]
    without a model. *)
Theorem cannot_read_id_guard_panics_on_nil_model :
  (forall (R : Type) (resp : option http_Response) (w : World R),
     cannotReadIdGuard {| HttpResponse := resp; Model := None |} w = (Panic, w)) /\
  (forall (R : Type) (read : GetOperationResponse) (w : World R),
     fst (cannotReadIdGuard read w) <> Val true) /\
  fst (resourceMonitorSubscriptionDiagnosticSettingCreateUpdate
         (scriptedEnv (fun _ => nilModel) None (None, None))
         (initialWorld sampleData)) = Panic.
Proof.
  split; [|split].
  - intros. now rewrite cannotReadIdGuard_spec.
  - intros. rewrite cannotReadIdGuard_spec. simpl.
    destruct (Model read); discriminate.
  - vm_compute. reflexivity.
Qed.

(** ** Delete *)

Section Runs.
Variable f : nat -> poll.

Lemma completesRun_none (occ : nat) : ~ completesRun f 0 occ.
Proof. intros (m & Hm & _). lia. Qed.

Lemma completesRun_failed (n occ : nat) :
f 0 = PollFailed -> ~ completesRun f n occ.
Proof. intros H0 (m & _ & Hf & _). apply (Hf 0); [lia | exact H0]. Qed.

Lemma completesRun_now (n occ : nat) :
f 0 = PollNotFound -> 5 <= 1 + occ -> completesRun f (S n) occ.
Proof.
intros H0 Hocc. exists 0. repeat split; try lia.
- intros i Hi. assert (i = 0) as -> by lia. congruence.
- intros i Hi _. assert (i = 0) as -> by lia. exact H0.
Qed.

Lemma completesRun_not_found (n occ : nat) :
f 0 = PollNotFound -> S occ < 5 ->
completesRun f (S n) occ <-> completesRun (fun i => f (S i)) n (S occ).
Proof.
intros H0 Hocc. split.
- intros (m & Hm & Hf & H5 & Hrun).
  destruct m as [|m]; [lia|].
  exists m. repeat split; try lia.
  + intros i Hi. apply Hf. lia.
  + intros i Hi Hw. apply Hrun; lia.
- intros (m & Hm & Hf & H5 & Hrun).
  exists (S m). repeat split; try lia.
  + intros [|i] Hi; [congruence | apply Hf; lia].
  + intros [|i] Hi Hw; [exact H0 | apply Hrun; lia].
Qed.

Lemma completesRun_exists (n occ : nat) :
f 0 = PollExists ->
completesRun f (S n) occ <-> completesRun (fun i => f (S i)) n 0.
Proof.
intros H0. split.
- intros (m & Hm & Hf & H5 & Hrun).
  assert (5 <= m).
  { destruct (le_lt_dec 5 m) as [|Hlt]; [assumption|].
    specialize (Hrun 0 ltac:(lia) ltac:(lia)). congruence. }
  destruct m as [|m]; [lia|].
  exists m. repeat split; try lia.
  + intros i Hi. apply Hf. lia.
  + intros i Hi Hw. apply Hrun; lia.
- intros (m & Hm & Hf & H5 & Hrun).
  exists (S m). repeat split; try lia.
  + intros [|i] Hi; [congruence | apply Hf; lia].
  + intros [|i] Hi Hw; [lia | apply Hrun; lia].
Qed.

(** From the start of a wait: five not-found polls in a row, the last of
  them within the polls allowed, and no failed poll up to there. *)
Lemma completesRun_start (n : nat) :
completesRun f n 0 <->
exists k, k + 5 <= n /\
          (forall i, i < k + 5 -> f i <> PollFailed) /\
          (forall i, k <= i < k + 5 -> f i = PollNotFound).
Proof.
split.
- intros (m & Hm & Hf & H5 & Hrun).
  exists (m - 4). repeat split; try lia.
  + intros i Hi. apply Hf. lia.
  + intros i Hi. apply Hrun; lia.
- intros (k & Hk & Hf & Hrun).
  exists (k + 4). repeat split; try lia.
  + intros i Hi. apply Hf. lia.
  + intros i Hi Hw. apply Hrun. lia.
Qed.
End Runs.

Section Stops.
Variable f : nat -> poll.

Lemma completesAt_first (occ : nat) :
  completesAt f occ 0 <-> f 0 = PollNotFound /\ 5 <= 1 + occ.
Proof.
  unfold completesAt. split.
  - intros [H5 Hw]. split; [apply Hw; lia | lia].
  - intros [H0 H5]. split; [lia|].
    intros j Hj _. assert (j = 0) as -> by lia. exact H0.
Qed.

Lemma completesAt_after_not_found (occ i : nat) :
  f 0 = PollNotFound ->
  completesAt f occ (S i) <-> completesAt (fun j => f (S j)) (S occ) i.
Proof.
  intros H0. unfold completesAt. split.
  - intros [H5 Hw]. split; [lia|]. intros j Hj Hk. apply Hw; lia.
  - intros [H5 Hw]. split; [lia|].
    intros [|j] Hj Hk; [exact H0 | apply Hw; lia].
Qed.

Lemma completesAt_after_exists (occ i : nat) :
  f 0 = PollExists ->
  completesAt f occ (S i) <-> completesAt (fun j => f (S j)) 0 i.
Proof.
  intros H0. unfold completesAt. split.
  - intros [H5 Hw].
    assert (4 <= i).
    { destruct (le_lt_dec 4 i) as [|Hlt]; [assumption|].
      specialize (Hw 0 ltac:(lia) ltac:(lia)). congruence. }
    split; [lia|]. intros j Hj Hk. apply Hw; lia.
  - intros [H5 Hw]. split; [lia|].
    intros [|j] Hj Hk; [lia | apply Hw; lia].
Qed.

Lemma completesAt_start (i : nat) : completesAt f 0 i <-> runEndsAt f i.
Proof.
  unfold completesAt, runEndsAt. split.
  - intros [H5 Hw]. split; [lia|]. intros j Hj. apply Hw; lia.
  - intros [H4 Hw]. split; [lia|]. intros j Hj Hk. apply Hw. lia.
Qed.
End Stops.

Section DeleteFacts.
Context {R : Type} (env : Env R).

Lemma refresh_eq (id : DiagnosticSettingId) (w : World R) :
monitorSubscriptionDiagnosticSettingDeletedRefreshFunc (client env) id w
= (Val (let '(res, err) := fst (clientGet (client env) id (wRemote w)) in
        match err with
        | Some e => if WasNotFound (HttpResponse res)
                    then (RString "NotFound", "NotFound", None)
                    else (RNil, "", Some (ErrRefresh e))
        | None => (RResponse res, "Exists", None)
        end),
   afterGet env id w).
Proof.
unfold monitorSubscriptionDiagnosticSettingDeletedRefreshFunc, client_Get,
  bind, logCall, remote, ret, afterGet. simpl.
destruct (clientGet (client env) id (wRemote w)) as [[res [e|]] r']; simpl;
  [destruct (WasNotFound (HttpResponse res))|]; reflexivity.
Qed.

Lemma pollCalls_S (id : DiagnosticSettingId) (clock dt : Z) (m : nat) :
pollCalls id clock dt (S m)
= (clock, CallGet id) :: pollCalls id (clock + dt) dt m.
Proof.
unfold pollCalls. simpl. f_equal.
- f_equal. lia.
- rewrite <- seq_shift, map_map. apply map_ext. intros i. f_equal. lia.
Qed.

Lemma waitLoop_delete (d : ResourceData) (id : DiagnosticSettingId) (n : nat) :
forall (occ : nat) (last : string) (w : World R),
  occ < 5 ->
  let out := waitLoop n (deleteStateConf env d id) occ last w in
  let f := nthPoll (client env) id (wRemote w) in
  ((exists v, fst out = Val (v, None)) <-> completesRun f n occ) /\
  (exists m, m <= n /\
     wCalls (snd out)
     = (wCalls w ++ pollCalls id (wClock w) (15 * Second) m)%list) /\
  ((forall i, i < n -> f i <> PollFailed) -> ~ completesRun f n occ ->
   exists last', fst out = Val (RNil, Some (ErrTimeout last'))).
Proof.
induction n as [|n IH]; intros occ last w Hocc out f.
- subst out. simpl. split; [|split].
  + split; [intros [v H]; discriminate|].
    intros H. now apply completesRun_none in H.
  + exists 0. split; [lia|]. now rewrite app_nil_r.
  + intros _ _. eauto.
- assert (F0 : f 0 = classify (fst (clientGet (client env) id (wRemote w))))
    by reflexivity.
  assert (E : out =
    let '(res, err) := fst (clientGet (client env) id (wRemote w)) in
    match err with
    | Some e =>
        if WasNotFound (HttpResponse res) then
          if Nat.eqb 5 (S occ)
          then (Val (RString "NotFound", None), afterGet env id w)
          else waitLoop n (deleteStateConf env d id) (S occ) "NotFound"
                 (afterSleep (15 * Second) (afterGet env id w))
        else (Val (RNil, Some (ErrRefresh e)), afterGet env id w)
    | None => waitLoop n (deleteStateConf env d id) 0 "Exists"
                (afterSleep (15 * Second) (afterGet env id w))
    end).
  { subst out. cbn [waitLoop]. unfold bind at 1.
    cbn [Refresh deleteStateConf]. rewrite refresh_eq.
    destruct (fst (clientGet (client env) id (wRemote w))) as [res [e|]].
    - destruct (WasNotFound (HttpResponse res)); [|reflexivity].
      cbn. destruct occ as [|[|[|[|[|occ]]]]]; reflexivity.
    - reflexivity. }
  unfold classify in F0.
  destruct (fst (clientGet (client env) id (wRemote w))) as [res [e|]] eqn:G;
    cbn [fst snd] in F0.
  + destruct (WasNotFound (HttpResponse res)) eqn:NF.
    * destruct (Nat.eqb_spec 5 (S occ)) as [H5|H5].
      -- rewrite E. cbn [fst snd afterGet wCalls]. split; [|split].
         ++ split; [intros _|eauto]. apply completesRun_now; [exact F0|lia].
         ++ exists 1. split; [lia|]. unfold pollCalls. simpl.
            do 3 f_equal. lia.
         ++ intros _ Hn. exfalso. apply Hn.
            apply completesRun_now; [exact F0|lia].
      -- destruct (IH (S occ) "NotFound"
                     (afterSleep (15 * Second) (afterGet env id w)) ltac:(lia))
           as (IH1 & (m & Hm & IH2) & IH3).
         rewrite E. cbn [afterSleep afterGet wRemote wCalls wClock] in *.
         split; [|split].
         ++ rewrite IH1. symmetry.
            apply (completesRun_not_found f n occ F0). lia.
         ++ exists (S m). split; [lia|]. rewrite IH2, pollCalls_S.
            now rewrite <- app_assoc.
         ++ intros Hf Hn. apply IH3.
            ** intros i Hi. apply (Hf (S i)). lia.
            ** intros Hc. apply Hn.
               apply (completesRun_not_found f n occ F0); [lia | exact Hc].
    * rewrite E. cbn [fst snd afterGet wCalls]. split; [|split].
      -- split; [intros [v H]; discriminate|].
         intros H. now apply completesRun_failed in H.
      -- exists 1. split; [lia|]. unfold pollCalls. simpl.
         do 3 f_equal. lia.
      -- intros Hf _. exfalso. apply (Hf 0); [lia | exact F0].
  + destruct (IH 0 "Exists" (afterSleep (15 * Second) (afterGet env id w))
                ltac:(lia)) as (IH1 & (m & Hm & IH2) & IH3).
    rewrite E. cbn [afterSleep afterGet wRemote wCalls wClock] in *.
    split; [|split].
    * rewrite IH1. symmetry. apply (completesRun_exists f n occ F0).
    * exists (S m). split; [lia|]. rewrite IH2, pollCalls_S.
      now rewrite <- app_assoc.
    * intros Hf Hn. apply IH3.
      -- intros i Hi. apply (Hf (S i)). lia.
      -- intros Hc. apply Hn.
         apply (completesRun_exists f n occ F0). exact Hc.
Qed.

Lemma waitLoop_stops (d : ResourceData) (id : DiagnosticSettingId) (n : nat) :
  forall (occ : nat) (last : string) (w : World R),
    occ < 5 ->
    let out := waitLoop n (deleteStateConf env d id) occ last w in
    let f := nthPoll (client env) id (wRemote w) in
    exists m,
      m <= n /\
      wCalls (snd out)
      = (wCalls w ++ pollCalls id (wClock w) (15 * Second) m)%list /\
      (forall i, S i < m -> f i <> PollFailed /\ ~ completesAt f occ i) /\
      (((exists v, fst out = Val (v, None)) /\
        exists i, m = S i /\ completesAt f occ i)
       \/ (exists i e,
             m = S i /\ f i = PollFailed /\
             nthGetError (client env) id (wRemote w) i = Some e /\
             fst out = Val (RNil, Some (ErrRefresh e)))
       \/ (m = n /\
           (forall i, i < n -> f i <> PollFailed /\ ~ completesAt f occ i) /\
           exists last', fst out = Val (RNil, Some (ErrTimeout last')))).
Proof.
  induction n as [|n IH]; intros occ last w Hocc out f.
  - subst out. simpl. exists 0. split; [lia|].
    split; [now rewrite app_nil_r|]. split; [intros i Hi; lia|].
    right. right. split; [reflexivity|]. split; [intros i Hi; lia | eauto].
  - assert (F0 : f 0 = classify (fst (clientGet (client env) id (wRemote w))))
      by reflexivity.
    assert (E0 : nthGetError (client env) id (wRemote w) 0
                 = snd (fst (clientGet (client env) id (wRemote w))))
      by reflexivity.
    assert (E : out =
      let '(res, err) := fst (clientGet (client env) id (wRemote w)) in
      match err with
      | Some e =>
          if WasNotFound (HttpResponse res) then
            if Nat.eqb 5 (S occ)
            then (Val (RString "NotFound", None), afterGet env id w)
            else waitLoop n (deleteStateConf env d id) (S occ) "NotFound"
                   (afterSleep (15 * Second) (afterGet env id w))
          else (Val (RNil, Some (ErrRefresh e)), afterGet env id w)
      | None => waitLoop n (deleteStateConf env d id) 0 "Exists"
                  (afterSleep (15 * Second) (afterGet env id w))
      end).
    { subst out. cbn [waitLoop]. unfold bind at 1.
      cbn [Refresh deleteStateConf]. rewrite refresh_eq.
      destruct (fst (clientGet (client env) id (wRemote w))) as [res [e|]].
      - destruct (WasNotFound (HttpResponse res)); [|reflexivity].
        cbn. destruct occ as [|[|[|[|[|occ]]]]]; reflexivity.
      - reflexivity. }
    unfold classify in F0.
    destruct (fst (clientGet (client env) id (wRemote w))) as [res [e|]] eqn:G;
      cbn [fst snd] in F0, E0.
    + destruct (WasNotFound (HttpResponse res)) eqn:NF.
      * destruct (Nat.eqb_spec 5 (S occ)) as [H5|H5].
        -- rewrite E. cbn [fst snd afterGet wCalls]. exists 1.
           split; [lia|]. split.
           { unfold pollCalls. simpl. do 3 f_equal. lia. }
           split; [intros i Hi; lia|].
           left. split; [eauto|]. exists 0. split; [reflexivity|].
           apply completesAt_first. split; [exact F0 | lia].
        -- destruct (IH (S occ) "NotFound"
                       (afterSleep (15 * Second) (afterGet env id w))
                       ltac:(lia))
             as (m & Hm & Hcalls & Hquiet & Hout).
           rewrite E. cbn [afterSleep afterGet wRemote wCalls wClock] in *.
           assert (Hfirst : f 0 <> PollFailed /\ ~ completesAt f occ 0).
           { split; [congruence|]. rewrite completesAt_first. lia. }
           assert (Hshift : forall i,
                     nthPoll (client env) id
                       (snd (clientGet (client env) id (wRemote w))) i
                     <> PollFailed /\
                     ~ completesAt
                         (nthPoll (client env) id
                            (snd (clientGet (client env) id (wRemote w))))
                         (S occ) i ->
                     f (S i) <> PollFailed /\ ~ completesAt f occ (S i)).
           { intros i [Ha Hb]. split; [exact Ha|].
             intros Hc. apply Hb.
             now apply (completesAt_after_not_found f occ i F0). }
           exists (S m). split; [lia|]. split.
           { rewrite Hcalls, pollCalls_S. now rewrite <- app_assoc. }
           split.
           { intros [|i] Hi; [exact Hfirst | apply Hshift, Hquiet; lia]. }
           destruct Hout as [[Hv (i & -> & Hc)]
                            |[(i & e' & -> & Hfail & He & Hv)
                             |(-> & Hall & Hv)]].
           ++ left. split; [exact Hv|]. exists (S i). split; [reflexivity|].
              now apply (completesAt_after_not_found f occ i F0).
           ++ right. left. exists (S i), e'. auto.
           ++ right. right. split; [reflexivity|]. split; [|exact Hv].
              intros [|i] Hi; [exact Hfirst | apply Hshift, Hall; lia].
      * rewrite E. cbn [fst snd afterGet wCalls]. exists 1.
        split; [lia|]. split.
        { unfold pollCalls. simpl. do 3 f_equal. lia. }
        split; [intros i Hi; lia|].
        right. left. exists 0, e. auto.
    + destruct (IH 0 "Exists" (afterSleep (15 * Second) (afterGet env id w))
                  ltac:(lia)) as (m & Hm & Hcalls & Hquiet & Hout).
      rewrite E. cbn [afterSleep afterGet wRemote wCalls wClock] in *.
      assert (Hfirst : f 0 <> PollFailed /\ ~ completesAt f occ 0).
      { split; [congruence|]. rewrite completesAt_first.
        intros [Hn _]. congruence. }
      assert (Hshift : forall i,
                nthPoll (client env) id
                  (snd (clientGet (client env) id (wRemote w))) i
                <> PollFailed /\
                ~ completesAt
                    (nthPoll (client env) id
                       (snd (clientGet (client env) id (wRemote w)))) 0 i ->
                f (S i) <> PollFailed /\ ~ completesAt f occ (S i)).
      { intros i [Ha Hb]. split; [exact Ha|].
        intros Hc. apply Hb.
        now apply (completesAt_after_exists f occ i F0). }
      exists (S m). split; [lia|]. split.
      { rewrite Hcalls, pollCalls_S. now rewrite <- app_assoc. }
      split.
      { intros [|i] Hi; [exact Hfirst | apply Hshift, Hquiet; lia]. }
      destruct Hout as [[Hv (i & -> & Hc)]
                       |[(i & e' & -> & Hfail & He & Hv)
                        |(-> & Hall & Hv)]].
      * left. split; [exact Hv|]. exists (S i). split; [reflexivity|].
        now apply (completesAt_after_exists f occ i F0).
      * right. left. exists (S i), e'. auto.
      * right. right. split; [reflexivity|]. split; [|exact Hv].
        intros [|i] Hi; [exact Hfirst | apply Hshift, Hall; lia].
Qed.
Lemma delete_eq (w : World R) (id : DiagnosticSettingId)
  (resp : option http_Response) (err : option remote_error) (r1 : R) :
ParseMonitorSubscriptionDiagnosticId (rdId (wData w)) = Ok id ->
clientDelete (client env) id (wRemote w) = ((resp, err), r1) ->
err = None \/ WasNotFound resp = true ->
resourceMonitorSubscriptionDiagnosticSettingDelete env w
= let conf := deleteStateConf env (wData w) id in
  let out := waitLoop (pollsWithin conf) conf 0 "" (afterDelete env id w) in
  (match fst out with
   | Val (_, Some e) =>
       Val (Some (ErrWaiting (Name id) (SubscriptionId id) e))
   | Val (_, None) => Val None
   | Panic => Panic
   end, snd out).
Proof.
intros Hid Hdel Hok.
unfold resourceMonitorSubscriptionDiagnosticSettingDelete.
unfold bind at 1, getData at 1. rewrite Hid.
unfold client_Delete, WaitForStateContext, afterDelete, bind, logCall,
  remote, ret.
cbn [wRemote wData wCalls wClock]. rewrite Hdel. cbv zeta. cbn [snd].
destruct Hok as [->| Hnf].
- destruct (waitLoop _ _ _ _ _) as [[[v [e|]]|] w']; reflexivity.
- rewrite Hnf. cbn [negb].
  destruct err; destruct (waitLoop _ _ _ _ _) as [[[v [e|]]|] w']; reflexivity.
Qed.

End DeleteFacts.

Lemma scripted_remoteAfter
    (gets : nat -> GetOperationResponse * option remote_error)
    (cu : option remote_error)
    (del : option http_Response * option remote_error)
    (id : DiagnosticSettingId) (n : nat) :
  forall r, remoteAfter (scriptedClient gets cu del) id r n = r + n.
Proof.
  induction n as [|n IH]; intros r; simpl; [lia|]. rewrite IH. lia.
Qed.

Lemma disappearing_polls (cu : option remote_error)
    (del : option http_Response * option remote_error)
    (id : DiagnosticSettingId) (i : nat) :
  nthPoll (scriptedClient disappearing cu del) id 0 i
  = if (i <? 2)%nat then PollExists else PollNotFound.
Proof.
  unfold nthPoll. rewrite scripted_remoteAfter. simpl.
  unfold disappearing. destruct (i <? 2)%nat; reflexivity.
Qed.


(** ** The watchlists client *)

Module WatchlistFacts.
Import securityinsight.


Lemma Validate_app (a b : list Validation) :
  Validate (a ++ b)
  = match Validate a with
    | Some err => Some err
    | None => Validate b
    end.
Proof.
  induction a as [|item a IH]; simpl; [reflexivity|].
  destruct (validateConstraints _ _); [reflexivity | exact IH].
Qed.

Lemma length_zero_eqb (s : string) :
  (1 <=? Z.of_nat (String.length s))%Z = negb (String.eqb s "").
Proof.
  destruct s as [|c s]; [reflexivity|].
  change (negb (String.eqb (String c s) "")) with true.
  apply Z.leb_le. cbn [String.length]. lia.
Qed.

Lemma length_max_ltb (s : string) :
  (Z.of_nat (String.length s) <=? 90)%Z = negb (90 <? String.length s)%nat.
Proof.
  destruct (Z.leb_spec (Z.of_nat (String.length s)) 90);
    destruct (Nat.ltb_spec 90 (String.length s)); simpl; lia.
Qed.

Lemma Validate_common (client : WatchlistsClient)
    (resourceGroupName workspaceName : string) :
  isNil (Validate (commonValidations client resourceGroupName workspaceName))
  = negb (invalidParameters client resourceGroupName workspaceName).
Proof.
  unfold commonValidations, invalidParameters.
  pose proof (length_max_ltb resourceGroupName) as Hr.
  pose proof (length_max_ltb workspaceName) as Hw.
  destruct (90 <? String.length resourceGroupName)%nat;
    destruct (90 <? String.length workspaceName)%nat;
    cbn; rewrite !length_zero_eqb, ?Hr, ?Hw; cbn;
    destruct (String.eqb (SubscriptionID client) "");
    destruct (String.eqb resourceGroupName "");
    destruct (String.eqb workspaceName ""); reflexivity.
Qed.

Lemma Validate_watchlist (watchlist : Watchlist) :
  isNil (Validate [watchlistValidation watchlist])
  = negb (incompleteWatchlist watchlist).
Proof.
  destruct watchlist as [resp [[[dn|] [pr|] [isk|]]|]]; vm_compute; reflexivity.
Qed.

Lemma isNil_false_Some {A} (o : option A) :
  isNil o = false -> exists a, o = Some a.
Proof. destruct o; [eauto | discriminate]. Qed.

Lemma isNil_true_None {A} (o : option A) : isNil o = true -> o = None.
Proof. destruct o; [discriminate | reflexivity]. Qed.

Section WithAutorest.
Context (ar : Autorest).

(** C8: each of [CreateOrUpdate], [Delete], [Get] and [List] validates its
    parameters before it prepares or sends a request: when the subscription ID
    of the client is empty, or the resource group name or the workspace name
    is empty or longer than 90 characters, the operation returns a validation
    error and the log of prepared and sent requests is unchanged;
    [CreateOrUpdate] does so too when the properties of the watchlist are
    present but lack the display name, the provider or the items search key.
    In no other case does an operation return a validation error. *)
Theorem operations_validate_before_any_request (client : WatchlistsClient)
    (resourceGroupName workspaceName watchlistAlias skipToken : string)
    (watchlist : Watchlist) (evs : list Event) :
  let createOrUpdate :=
    CreateOrUpdate ar client resourceGroupName workspaceName watchlistAlias
                   watchlist in
  let delete := Delete ar client resourceGroupName workspaceName watchlistAlias in
  let get := Get ar client resourceGroupName workspaceName watchlistAlias in
  let list := List ar client resourceGroupName workspaceName skipToken in
  (invalidParameters client resourceGroupName workspaceName = true ->
     rejected "CreateOrUpdate" zeroWatchlist createOrUpdate evs /\
     rejected "Delete" None delete evs /\
     rejected "Get" zeroWatchlist get evs /\
     rejected "List" zeroWatchlistListPage list evs) /\
  (incompleteWatchlist watchlist = true ->
     rejected "CreateOrUpdate" zeroWatchlist createOrUpdate evs) /\
  (invalidParameters client resourceGroupName workspaceName = false ->
     isValidationError (returnedError delete evs) = false /\
     isValidationError (returnedError get evs) = false /\
     isValidationError (returnedError list evs) = false /\
     (incompleteWatchlist watchlist = false ->
      isValidationError (returnedError createOrUpdate evs) = false)).
Proof.
  intros createOrUpdate delete get list.
  pose proof (Validate_common client resourceGroupName workspaceName) as Hc.
  pose proof (Validate_watchlist watchlist) as Hw.
  split; [|split].
  - intros Hbad. rewrite Hbad in Hc.
    apply isNil_false_Some in Hc as [failure Hc].
    unfold rejected.
    subst createOrUpdate delete get list.
    unfold CreateOrUpdate, Delete, Get, List.
    rewrite Validate_app, Hc. repeat split; eexists; reflexivity.
  - intros Hbad. rewrite Hbad in Hw.
    apply isNil_false_Some in Hw as [failure Hw].
    unfold rejected. subst createOrUpdate. unfold CreateOrUpdate.
    rewrite Validate_app, Hw.
    destruct (Validate (commonValidations _ _ _)); eexists; reflexivity.
  - intros Hgood. rewrite Hgood in Hc. apply isNil_true_None in Hc.
    subst createOrUpdate delete get list.
    unfold returnedError, CreateOrUpdate, Delete, Get, List.
    rewrite Validate_app, Hc.
    clear Hc Hgood. repeat split.
    + clear Hw.
      unfold DeletePreparer, DeleteResponder, prepare, send, emit, bind, ret.
      simpl. repeat (case_match; cbn [fst snd] in *; simplify_eq; simpl); reflexivity.
    + clear Hw.
      unfold GetPreparer, GetResponder, prepare, send, emit, bind, ret.
      simpl. repeat (case_match; cbn [fst snd] in *; simplify_eq; simpl); reflexivity.
    + clear Hw.
      unfold ListPreparer, ListResponder, prepare, send, emit, bind, ret.
      simpl. repeat (case_match; cbn [fst snd] in *; simplify_eq; simpl);
        try reflexivity;
        match goal with
        | |- context [option_map _ ?o] => destruct o; reflexivity
        end.
    + intros Hcomplete. rewrite Hcomplete in Hw. apply isNil_true_None in Hw.
      rewrite Hw. clear Hw Hcomplete.
      unfold CreateOrUpdatePreparer, CreateOrUpdateResponder, prepare, send,
        emit, bind, ret.
      simpl. repeat (case_match; cbn [fst snd] in *; simplify_eq; simpl); reflexivity.
Qed.
End WithAutorest.

Lemma operations_validate_before_any_request_witness :
  rejected "List" zeroWatchlistListPage
    (List okAutorest {| BaseURI := "https://management.azure.com";
                        SubscriptionID := "" |} "group" "workspace" "")
    [].
Proof.
  destruct (operations_validate_before_any_request okAutorest
              {| BaseURI := "https://management.azure.com";
                 SubscriptionID := "" |}
              "group" "workspace" "alias" "" zeroWatchlist [])
    as (H & _ & _).
  apply H. reflexivity.
Defined.

End WatchlistFacts.

(** * Further properties *)

(** ** More on the composite resource ID *)

(** X1: the resource ID that create/update stores, "{subscriptionId}|{name}",
    can be parsed back if and only if neither the subscription ID nor the
    name contains the byte '|'. *)
Theorem stored_id_parses_iff_no_separator (subscriptionID name : string) :
  (exists id,
     ParseMonitorSubscriptionDiagnosticId (formatResourceId subscriptionID name)
     = Ok id)
  <-> strings.Contains subscriptionID "|" = false /\
      strings.Contains name "|" = false.
Proof.
  split.
  - intros [id H]. unfold ParseMonitorSubscriptionDiagnosticId in H.
    pose proof (Split_length "|" (formatResourceId subscriptionID name)) as L.
    destruct (strings.Split (formatResourceId subscriptionID name) "|")
      as [|v0 [|v1 [|v2 vs]]]; try discriminate.
    unfold formatResourceId in L.
    change ("|" ++ name) with (String "|" name) in L.
    rewrite Count_app in L. simpl in L.
    rewrite !Contains_false. lia.
  - intros [Hs Hn]. eexists. apply Contains_false in Hs, Hn.
    now apply parse_formatted.
Qed.

(** X2: two ID strings that parse to the same composite key are the same
    string. *)
Theorem parse_injective (a b : string) (id : DiagnosticSettingId) :
  ParseMonitorSubscriptionDiagnosticId a = Ok id ->
  ParseMonitorSubscriptionDiagnosticId b = Ok id ->
  a = b.
Proof.
  intros Ha Hb.
  apply parse_ok_inv in Ha as [-> _]. apply parse_ok_inv in Hb as [-> _].
  reflexivity.
Qed.

Lemma parse_error_counts_segments (monitorId : string) (err : error) :
  ParseMonitorSubscriptionDiagnosticId monitorId = Err err ->
  err = ErrIdSegments (S (strings.Count monitorId "|")) /\
  strings.Count monitorId "|" <> 1.
Proof.
  intros H. pose proof (parse_error_shape _ _ H) as ->.
  rewrite Split_length. split; [reflexivity|].
  unfold ParseMonitorSubscriptionDiagnosticId in H.
  pose proof (Split_length "|" monitorId) as L.
  destruct (strings.Split monitorId "|") as [|v0 [|v1 [|v2 vs]]];
    simpl in L; try discriminate; lia.
Qed.

Lemma parse_malformed (s : string) :
  strings.Count s "|" <> 1 ->
  ParseMonitorSubscriptionDiagnosticId s
  = Err (ErrIdSegments (S (strings.Count s "|"))).
Proof.
  intros H.
  destruct (ParseMonitorSubscriptionDiagnosticId s) as [id|e] eqn:P.
  - apply parse_ok_inv in P as (E & Hs & Hn). exfalso. apply H.
    rewrite E. change ("|" ++ Name id) with (String "|" (Name id)).
    rewrite Count_app. simpl. lia.
  - now apply parse_error_counts_segments in P as [-> _].
Qed.

Lemma parse_injective_witness : "sub|diag" = "sub|diag".
Proof.
  apply (parse_injective "sub|diag" "sub|diag"
           (NewDiagnosticSettingID "sub" "diag")); reflexivity.
Defined.

(** ** More on expanding and flattening, and the hash of a log block *)

Lemma expandLogEntry_Some_iff (v : gmap string value) :
  (exists o, expandLogEntry v = Some o) <-> wellTypedLog v.
Proof.
  unfold expandLogEntry, wellTypedLog. split.
  - intros [o H].
    destruct (v !! "category") as [[category|]|]; try discriminate.
    destruct (v !! "category_group") as [[categoryGroup|]|]; try discriminate.
    destruct (v !! "enabled") as [[|enabled]|]; try discriminate.
    eexists _, _, _. repeat split.
  - intros (category & categoryGroup & enabled & -> & -> & ->). simpl. eauto.
Qed.

Lemma expandLogsLoop_Some_iff (input : list (gmap string value)) :
  forall results,
    (exists logs, expandLogsLoop input results = Some logs)
    <-> Forall wellTypedLog input.
Proof.
  induction input as [|raw input IH]; simpl; intros results.
  - split; [constructor | eauto].
  - split.
    + intros [logs H].
      destruct (expandLogEntry raw) as [output|] eqn:E; simpl in H;
        [|discriminate].
      constructor.
      * apply expandLogEntry_Some_iff. eauto.
      * apply (IH (results ++ [output])%list). eauto.
    + intros H. inversion H as [|? ? Hraw Hrest]; subst.
      apply expandLogEntry_Some_iff in Hraw as [output ->]. simpl.
      now apply IH.
Qed.

Lemma expand_None_iff (input : list (gmap string value)) :
  expandSubscriptionMonitorDiagnosticsSettingsLogs input = None
  <-> Exists (fun v => ~ wellTypedLog v) input.
Proof.
  unfold expandSubscriptionMonitorDiagnosticsSettingsLogs.
  pose proof (expandLogsLoop_Some_iff input []) as H.
  assert (Dec : forall v, Decision (wellTypedLog v)).
  { intros v. unfold Decision.
    destruct (expandLogEntry v) as [o|] eqn:E.
    - left. apply expandLogEntry_Some_iff. eauto.
    - right. intros W. apply expandLogEntry_Some_iff in W as [o W]. congruence. }
  destruct (expandLogsLoop input []) as [logs|].
  - split; [discriminate|]. intros Hn. exfalso.
    apply Exists_not_Forall in Hn. apply Hn, H. eauto.
  - split; [|reflexivity]. intros _.
    apply not_Forall_Exists; [exact Dec|].
    intros HF. apply H in HF as [logs HF]. discriminate.
Qed.

(** X3: the expansion panics if and only if some raw entry is malformed,
    that is, lacks one of the keys [category], [category_group] and [enabled]
    or holds a value of the wrong type under one of them. *)
Theorem expand_panics_iff_malformed_entry (input : list (gmap string value)) :
  expandSubscriptionMonitorDiagnosticsSettingsLogs input = None
  <-> Exists (fun v => ~ wellTypedLog v) input.
Proof. apply expand_None_iff. Qed.

Lemma flattenLogEntry_lookups (o : SubscriptionLogSettings) :
  flattenLogEntry o !! "category" = VString <$> Category o /\
  flattenLogEntry o !! "category_group" = VString <$> CategoryGroup o /\
  flattenLogEntry o !! "enabled" = Some (VBool (Enabled o)).
Proof.
  unfold flattenLogEntry.
  destruct (Category o), (CategoryGroup o); simpl; repeat split;
    simplify_map_eq; reflexivity.
Qed.

Lemma flattenLogEntry_inj (a b : SubscriptionLogSettings) :
  flattenLogEntry a = flattenLogEntry b -> a = b.
Proof.
  intros H.
  destruct (flattenLogEntry_lookups a) as (Ac & Ag & Ae).
  destruct (flattenLogEntry_lookups b) as (Bc & Bg & Be).
  rewrite H in Ac, Ag, Ae.
  rewrite Ac in Bc. rewrite Ag in Bg. rewrite Ae in Be.
  destruct a as [ac ag ae], b as [bc bg be]; simpl in *.
  destruct ac, bc, ag, bg; simpl in *; congruence.
Qed.

(** X4: flattening loses nothing: two lists of log settings with the same
    flattened form are equal. *)
Theorem flatten_loses_nothing (a b : list SubscriptionLogSettings) :
  flattenMonitorSubscriptionDiagnosticLogs (Some a)
  = flattenMonitorSubscriptionDiagnosticLogs (Some b) ->
  a = b.
Proof.
  unfold flattenMonitorSubscriptionDiagnosticLogs.
  rewrite !flattenLogsLoop_spec. simpl.
  revert b. induction a as [|x a IH]; intros [|y b] H; simpl in H;
    try discriminate; [reflexivity|].
  injection H as Hxy Hab.
  f_equal; [now apply flattenLogEntry_inj | now apply IH].
Qed.

(** X5: the flattened form of expanded log entries is not an input of the
    expansion: an expanded entry has only one of category and category group,
    its flattened form lacks the key of the other, and the expansion of a
    list that is not empty panics on the missing key. *)
Theorem expanded_logs_do_not_expand_again
    (input : list (gmap string value)) (logs : list SubscriptionLogSettings) :
  expandSubscriptionMonitorDiagnosticsSettingsLogs input = Some logs ->
  logs <> [] ->
  expandSubscriptionMonitorDiagnosticsSettingsLogs
    (flattenMonitorSubscriptionDiagnosticLogs (Some logs)) = None.
Proof.
  intros Hexp Hne.
  apply expand_None_iff.
  unfold flattenMonitorSubscriptionDiagnosticLogs.
  rewrite flattenLogsLoop_spec. simpl.
  apply expand_spec in Hexp.
  destruct Hexp as [|v o input logs Hvo _]; [congruence|].
  simpl. apply Exists_cons_hd.
  intros (category & categoryGroup & enabled & Hc & Hg & _).
  destruct (flattenLogEntry_lookups o) as (Fc & Fg & _).
  rewrite Fc in Hc. rewrite Fg in Hg.
  apply expandLogEntry_expandsTo in Hvo
    as (c & g & e & _ & _ & _ & _ & Hcat & Hgrp).
  destruct (String.eqb_spec c "") as [E|E].
  - destruct (Hgrp E) as [Hn _]. rewrite Hn in Hc. discriminate.
  - destruct (Hcat E) as [_ Hn]. rewrite Hn in Hg. discriminate.
Qed.

Lemma append_assoc (a b c : string) : (a ++ b) ++ c = a ++ (b ++ c).
Proof.
  induction a as [|x a IH]; [reflexivity|].
  change (String x ((a ++ b) ++ c) = String x (a ++ (b ++ c))).
  now rewrite IH.
Qed.

Lemma cut_at_separator (sep : ascii) (a a' r r' : string) :
  strings.Count a sep = 0 -> strings.Count a' sep = 0 ->
  a ++ String sep r = a' ++ String sep r' -> a = a' /\ r = r'.
Proof.
  revert a'. induction a as [|c a IH]; intros [|c' a'] Ha Ha' H; simpl in *.
  - injection H as ->. auto.
  - injection H as <- _. rewrite Ascii.eqb_refl in Ha'. discriminate.
  - injection H as -> _. rewrite Ascii.eqb_refl in Ha. discriminate.
  - injection H as <- H.
    destruct (Ascii.eqb c sep); [discriminate|].
    destruct (IH a' Ha Ha' H) as [-> ->]. auto.
Qed.

Lemma hash_buffer_format (v : gmap string value) (c g : string) (e : bool) :
  v !! "category" = Some (VString c) ->
  v !! "category_group" = Some (VString g) ->
  v !! "enabled" = Some (VBool e) ->
  logSettingHashBuffer (Some v)
  = Some (c ++ "-" ++ g ++ "-" ++ formatBool e ++ "-").
Proof.
  intros Hc Hg He. unfold logSettingHashBuffer. rewrite Hc, Hg, He. simpl.
  now rewrite !append_assoc.
Qed.

(** X6: for a raw log entry whose category and category group are strings
    and whose enabled flag is a boolean, the hash function writes the
    category, the category group and the flag, each followed by a dash, to
    its buffer (it does not panic); and for two such entries whose category
    and category group contain no dash the buffers are equal if and only if
    the entries have the same category, category group and enabled flag. *)
Theorem hash_buffer_separates_dash_free_entries (v1 v2 : gmap string value)
    (c1 g1 : string) (e1 : bool) :
  v1 !! "category" = Some (VString c1) ->
  v1 !! "category_group" = Some (VString g1) ->
  v1 !! "enabled" = Some (VBool e1) ->
  logSettingHashBuffer (Some v1)
  = Some (c1 ++ "-" ++ g1 ++ "-" ++ formatBool e1 ++ "-") /\
  (wellTypedLog v2 -> dashFree v1 -> dashFree v2 ->
   (logSettingHashBuffer (Some v1) = logSettingHashBuffer (Some v2)
    <-> sameLogFields v1 v2)).
Proof.
  intros Hc1 Hg1 He1. split; [now apply hash_buffer_format|].
  intros (c2 & g2 & e2 & Hc2 & Hg2 & He2) D1 D2.
  pose proof (D1 "category" c1 (or_introl eq_refl) Hc1) as Dc1.
  pose proof (D1 "category_group" g1 (or_intror eq_refl) Hg1) as Dg1.
  pose proof (D2 "category" c2 (or_introl eq_refl) Hc2) as Dc2.
  pose proof (D2 "category_group" g2 (or_intror eq_refl) Hg2) as Dg2.
  rewrite (hash_buffer_format v1 c1 g1 e1 Hc1 Hg1 He1).
  rewrite (hash_buffer_format v2 c2 g2 e2 Hc2 Hg2 He2).
  unfold sameLogFields. rewrite Hc1, Hg1, He1, Hc2, Hg2, He2.
  split.
  - intros [= H].
    assert (H' : c1 ++ String "-" (g1 ++ String "-" (formatBool e1 ++ "-"))
                 = c2 ++ String "-" (g2 ++ String "-" (formatBool e2 ++ "-"))).
    { exact H. }
    apply cut_at_separator in H' as [-> H']; [|assumption..].
    apply cut_at_separator in H' as [-> H']; [|assumption..].
    destruct e1, e2; simpl in H'; try discriminate H'; auto.
  - intros ([= ->] & [= ->] & [= ->]). reflexivity.
Qed.


Lemma flatten_loses_nothing_witness : sampleLogs = sampleLogs.
Proof. apply (flatten_loses_nothing sampleLogs sampleLogs). reflexivity. Defined.

Lemma expanded_logs_do_not_expand_again_witness :
  expandSubscriptionMonitorDiagnosticsSettingsLogs
    (flattenMonitorSubscriptionDiagnosticLogs (Some sampleLogs)) = None.
Proof.
  apply (expanded_logs_do_not_expand_again sampleRawLogs sampleLogs).
  - vm_compute. reflexivity.
  - discriminate.
Defined.

Lemma hash_buffer_separates_dash_free_entries_witness :
  logSettingHashBuffer (Some securityLog) = Some "Security--true-" /\
  logSettingHashBuffer (Some securityLog)
  <> logSettingHashBuffer (Some allLogsGroup).
Proof.
  destruct (hash_buffer_separates_dash_free_entries securityLog allLogsGroup
              "Security" "" true eq_refl eq_refl eq_refl) as [Hf H].
  split; [exact Hf|].
  destruct H as [H _].
  - eexists _, _, _. repeat split; vm_compute; reflexivity.
  - intros key s [-> | ->] E; vm_compute in E; injection E as <-; reflexivity.
  - intros key s [-> | ->] E; vm_compute in E; injection E as <-; reflexivity.
  - intros E. apply H in E as [E _]. vm_compute in E. discriminate E.
Defined.

(** ** More on the read function *)

Section ReadMore.
Context {R : Type} (env : Env R).

Lemma read_malformed_eq (w : World R) :
  strings.Count (rdId (wData w)) "|" <> 1 ->
  resourceMonitorSubscriptionDiagnosticSettingRead env w
  = (Val (Some (ErrIdSegments (S (strings.Count (rdId (wData w)) "|")))), w).
Proof.
  intros H. apply parse_malformed in H.
  unfold resourceMonitorSubscriptionDiagnosticSettingRead.
  unfold bind at 1, getData at 1. now rewrite H.
Qed.

Lemma delete_malformed_eq (w : World R) :
  strings.Count (rdId (wData w)) "|" <> 1 ->
  resourceMonitorSubscriptionDiagnosticSettingDelete env w
  = (Val (Some (ErrIdSegments (S (strings.Count (rdId (wData w)) "|")))), w).
Proof.
  intros H. apply parse_malformed in H.
  unfold resourceMonitorSubscriptionDiagnosticSettingDelete.
  unfold bind at 1, getData at 1. now rewrite H.
Qed.

(** X7: on a resource ID that does not contain exactly one '|', the read
    and the delete functions return the error that reports the number of
    segments (one more than the number of separators) and leave the world as
    it is: no remote call is made and the resource data is unchanged. *)
Theorem malformed_id_stops_before_any_call (w : World R) :
  strings.Count (rdId (wData w)) "|" <> 1 ->
  let err := ErrIdSegments (S (strings.Count (rdId (wData w)) "|")) in
  resourceMonitorSubscriptionDiagnosticSettingRead env w = (Val (Some err), w) /\
  resourceMonitorSubscriptionDiagnosticSettingDelete env w = (Val (Some err), w).
Proof.
  intros H err. split; [now apply read_malformed_eq | now apply delete_malformed_eq].
Qed.

Lemma read_calls_exact (w : World R) (id : DiagnosticSettingId) :
  ParseMonitorSubscriptionDiagnosticId (rdId (wData w)) = Ok id ->
  let result := resourceMonitorSubscriptionDiagnosticSettingRead env w in
  (exists r, fst result = Val r) /\
  callsSince w (snd result) [(wClock w, CallGet id)] /\
  wClock (snd result) = wClock w.
Proof.
  intros Hid result.
  assert (E : exists out d' r',
             result = (Val out,
                       {| wData := d'; wRemote := r';
                          wCalls := (wCalls w ++ [(wClock w, CallGet id)])%list;
                          wClock := wClock w |})).
  { subst result. unfold resourceMonitorSubscriptionDiagnosticSettingRead.
    unfold bind at 1, getData at 1. rewrite Hid.
    unfold readProperties,
      client_Get, d_Set, d_SetId, bind, getData, putData, logCall, remote, ret.
    simpl.
    repeat (case_match; simpl in *; simplify_eq); eexists _, _, _; reflexivity. }
  destruct E as (out & d' & r' & ->). unfold callsSince. cbn. eauto.
Qed.

(** X8: the read function never panics and does not let time pass; when
    the resource ID parses it makes exactly one remote call, a [Get] of the
    parsed ID, and otherwise it changes nothing. *)
Theorem read_makes_at_most_one_get (w : World R) :
  let result := resourceMonitorSubscriptionDiagnosticSettingRead env w in
  (exists r, fst result = Val r) /\
  wClock (snd result) = wClock w /\
  match ParseMonitorSubscriptionDiagnosticId (rdId (wData w)) with
  | Ok id => callsSince w (snd result) [(wClock w, CallGet id)]
  | Err _ => snd result = w
  end.
Proof.
  intros result.
  destruct (ParseMonitorSubscriptionDiagnosticId (rdId (wData w)))
    as [id|e] eqn:P.
  - destruct (read_calls_exact w id P) as (H1 & H2 & H3). auto.
  - assert (E : result = (Val (Some e), w)).
    { subst result. unfold resourceMonitorSubscriptionDiagnosticSettingRead.
      unfold bind at 1, getData at 1. now rewrite P. }
    rewrite E. cbn. eauto.
Qed.

(** X9: when the [Get] succeeds but the response has no model, or a model
    without properties, the read function returns nil, keeps the resource ID
    and writes two attributes only: the name and the target subscription ID,
    taken from the parsed resource ID. *)
Theorem read_without_properties (w : World R) (id : DiagnosticSettingId)
    (resp : GetOperationResponse) (r' : R) :
  ParseMonitorSubscriptionDiagnosticId (rdId (wData w)) = Ok id ->
  clientGet (client env) id (wRemote w) = ((resp, None), r') ->
  (Model resp = None \/
   exists model, Model resp = Some model /\ Properties model = None) ->
  let result := resourceMonitorSubscriptionDiagnosticSettingRead env w in
  fst result = Val None /\
  rdId (wData (snd result)) = rdId (wData w) /\
  rdAttrs (wData (snd result))
  = <["target_subscription_id" := AString (SubscriptionId id)]>
      (<["name" := AString (Name id)]> (rdAttrs (wData w))).
Proof.
  intros Hid Hget Hno result.
  assert (E : result =
    (Val None,
     {| wData := {| rdId := rdId (wData w);
                    rdIsNewResource := rdIsNewResource (wData w);
                    rdAttrs := <["target_subscription_id" := AString (SubscriptionId id)]>
                                 (<["name" := AString (Name id)]> (rdAttrs (wData w)));
                    rdTimeoutDelete := rdTimeoutDelete (wData w) |};
        wRemote := r';
        wCalls := (wCalls w ++ [(wClock w, CallGet id)])%list;
        wClock := wClock w |})).
  { subst result. unfold resourceMonitorSubscriptionDiagnosticSettingRead.
    unfold bind at 1, getData at 1. rewrite Hid.
    unfold client_Get, d_Set, bind, getData, putData, logCall, remote, ret.
    simpl. rewrite Hget. simpl.
    destruct Hno as [-> | (model & -> & ->)]; reflexivity. }
  rewrite E. auto.
Qed.

(** X10: whenever the read function returns an error, the [log] attribute
    of the resource data is as it was before. *)
Theorem read_writes_log_only_on_success (w : World R) (e : error) :
  let result := resourceMonitorSubscriptionDiagnosticSettingRead env w in
  fst result = Val (Some e) ->
  rdAttrs (wData (snd result)) !! "log" = rdAttrs (wData w) !! "log".
Proof.
  unfold resourceMonitorSubscriptionDiagnosticSettingRead, readProperties,
    client_Get, d_Set, d_SetId, bind, getData, putData, logCall, remote, ret.
  simpl.
  repeat (case_match; simpl in *; simplify_eq);
    try (intros [=]); simplify_map_eq; reflexivity.
Qed.

Lemma readProperties_written (props : SubscriptionDiagnosticSettings)
    (w : World R) :
  let result := readProperties env props w in
  fst result = Val None ->
  let attrs := rdAttrs (wData (snd result)) in
  attrs !! "name" = rdAttrs (wData w) !! "name" /\
  attrs !! "target_subscription_id"
    = rdAttrs (wData w) !! "target_subscription_id" /\
  attrs !! "eventhub_name"
    = Some (AString (NormalizeNilableString (EventHubName props))) /\
  attrs !! "log"
    = Some (ALogs (flattenMonitorSubscriptionDiagnosticLogs (Logs props))) /\
  (if nonEmptyPtr (EventHubAuthorizationRuleId props)
   then exists ruleId,
          ParseAuthorizationRuleIDInsensitively env
            (NormalizeNilableString (EventHubAuthorizationRuleId props))
          = ParsedId ruleId /\
          attrs !! "eventhub_authorization_rule_id" = Some (AString ruleId)
   else attrs !! "eventhub_authorization_rule_id" = Some (AString "")) /\
  (if nonEmptyPtr (WorkspaceId props)
   then exists workspaceId,
          ParseWorkspaceID env (NormalizeNilableString (WorkspaceId props))
          = ParsedId workspaceId /\
          attrs !! "log_analytics_workspace_id" = Some (AString workspaceId)
   else attrs !! "log_analytics_workspace_id" = Some (AString "")) /\
  (if nonEmptyPtr (StorageAccountId props)
   then exists storageAccountId,
          StorageAccountID env (NormalizeNilableString (StorageAccountId props))
          = ParsedId storageAccountId /\
          attrs !! "storage_account_id" = Some (AString storageAccountId)
   else attrs !! "storage_account_id"
        = rdAttrs (wData w) !! "storage_account_id").
Proof.
  intros result.
  assert (E : exists out d', result
              = (out, {| wData := d'; wRemote := wRemote w;
                         wCalls := wCalls w; wClock := wClock w |}) /\
              (out = Val None ->
               rdAttrs d' !! "name" = rdAttrs (wData w) !! "name" /\
               rdAttrs d' !! "target_subscription_id"
                 = rdAttrs (wData w) !! "target_subscription_id" /\
               rdAttrs d' !! "eventhub_name"
                 = Some (AString (NormalizeNilableString (EventHubName props))) /\
               rdAttrs d' !! "log"
                 = Some (ALogs (flattenMonitorSubscriptionDiagnosticLogs (Logs props))) /\
               (if nonEmptyPtr (EventHubAuthorizationRuleId props)
                then exists ruleId,
                       ParseAuthorizationRuleIDInsensitively env
                         (NormalizeNilableString (EventHubAuthorizationRuleId props))
                       = ParsedId ruleId /\
                       rdAttrs d' !! "eventhub_authorization_rule_id"
                       = Some (AString ruleId)
                else rdAttrs d' !! "eventhub_authorization_rule_id"
                     = Some (AString "")) /\
               (if nonEmptyPtr (WorkspaceId props)
                then exists workspaceId,
                       ParseWorkspaceID env
                         (NormalizeNilableString (WorkspaceId props))
                       = ParsedId workspaceId /\
                       rdAttrs d' !! "log_analytics_workspace_id"
                       = Some (AString workspaceId)
                else rdAttrs d' !! "log_analytics_workspace_id"
                     = Some (AString "")) /\
               (if nonEmptyPtr (StorageAccountId props)
                then exists storageAccountId,
                       StorageAccountID env
                         (NormalizeNilableString (StorageAccountId props))
                       = ParsedId storageAccountId /\
                       rdAttrs d' !! "storage_account_id"
                       = Some (AString storageAccountId)
                else rdAttrs d' !! "storage_account_id"
                     = rdAttrs (wData w) !! "storage_account_id"))).
  { subst result.
    unfold readProperties, d_Set, bind, getData, putData, ret.
    destruct (nonEmptyPtr (EventHubAuthorizationRuleId props));
      [destruct (ParseAuthorizationRuleIDInsensitively env _) eqn:P1|];
    (destruct (nonEmptyPtr (WorkspaceId props));
      [destruct (ParseWorkspaceID env _) eqn:P2|]);
    (destruct (nonEmptyPtr (StorageAccountId props));
      [destruct (StorageAccountID env _) eqn:P3|]);
    cbn; eexists _, _; (split; [reflexivity|]);
    intros H; try discriminate H; clear H; cbn;
    repeat (split; [simplify_map_eq; eauto|]); simplify_map_eq; eauto. }
  destruct E as (out & d' & -> & E). exact E.
Qed.

(** X11: when the [Get] succeeds with properties and the read function
    returns nil, the resource data holds the name and the subscription ID of
    the parsed resource ID, the event hub name (empty for nil), the flattened
    logs, and for the rule ID and the workspace ID the normalised remote ID,
    or the empty string when the remote one is nil or empty; the storage
    account ID is written only when the remote one is not empty, and keeps
    its previous value otherwise. *)
Theorem read_copies_remote_properties (w : World R) (id : DiagnosticSettingId)
    (resp : GetOperationResponse) (r' : R)
    (model : SubscriptionDiagnosticSettingsResource)
    (props : SubscriptionDiagnosticSettings) :
  ParseMonitorSubscriptionDiagnosticId (rdId (wData w)) = Ok id ->
  clientGet (client env) id (wRemote w) = ((resp, None), r') ->
  Model resp = Some model ->
  Properties model = Some props ->
  let result := resourceMonitorSubscriptionDiagnosticSettingRead env w in
  fst result = Val None ->
  let attrs := rdAttrs (wData (snd result)) in
  attrs !! "name" = Some (AString (Name id)) /\
  attrs !! "target_subscription_id" = Some (AString (SubscriptionId id)) /\
  attrs !! "eventhub_name"
    = Some (AString (NormalizeNilableString (EventHubName props))) /\
  attrs !! "log"
    = Some (ALogs (flattenMonitorSubscriptionDiagnosticLogs (Logs props))) /\
  (if nonEmptyPtr (EventHubAuthorizationRuleId props)
   then exists ruleId,
          ParseAuthorizationRuleIDInsensitively env
            (NormalizeNilableString (EventHubAuthorizationRuleId props))
          = ParsedId ruleId /\
          attrs !! "eventhub_authorization_rule_id" = Some (AString ruleId)
   else attrs !! "eventhub_authorization_rule_id" = Some (AString "")) /\
  (if nonEmptyPtr (WorkspaceId props)
   then exists workspaceId,
          ParseWorkspaceID env (NormalizeNilableString (WorkspaceId props))
          = ParsedId workspaceId /\
          attrs !! "log_analytics_workspace_id" = Some (AString workspaceId)
   else attrs !! "log_analytics_workspace_id" = Some (AString "")) /\
  (if nonEmptyPtr (StorageAccountId props)
   then exists storageAccountId,
          StorageAccountID env (NormalizeNilableString (StorageAccountId props))
          = ParsedId storageAccountId /\
          attrs !! "storage_account_id" = Some (AString storageAccountId)
   else attrs !! "storage_account_id"
        = rdAttrs (wData w) !! "storage_account_id").
Proof.
  intros Hid Hget Hm Hp result.
  set (w1 := {| wData := {| rdId := rdId (wData w);
                           rdIsNewResource := rdIsNewResource (wData w);
                           rdAttrs := <["target_subscription_id" := AString (SubscriptionId id)]>
                                        (<["name" := AString (Name id)]> (rdAttrs (wData w)));
                           rdTimeoutDelete := rdTimeoutDelete (wData w) |};
                wRemote := r';
                wCalls := (wCalls w ++ [(wClock w, CallGet id)])%list;
                wClock := wClock w |}).
  assert (E : result = readProperties env props w1).
  { subst result. unfold resourceMonitorSubscriptionDiagnosticSettingRead.
    unfold bind at 1, getData at 1. rewrite Hid.
    unfold client_Get, bind at 1, bind at 1, logCall, remote. cbn [wRemote].
    rewrite Hget. cbv zeta.
    unfold d_Set at 1 2. cbn [schemaAccepts].
    unfold bind, getData, putData, ret. cbn. rewrite Hm, Hp. reflexivity. }
  rewrite E. intros Hok.
  pose proof (readProperties_written props w1 Hok) as
    (Hn & Ht & He & Hl & Hr & Hws & Hst).
  cbv zeta. subst w1. cbn [wData rdAttrs] in *.
  rewrite Hn, Ht. simplify_map_eq.
  repeat (split; [assumption || reflexivity|]).
  destruct (nonEmptyPtr (StorageAccountId props)); [exact Hst|].
  rewrite Hst. simplify_map_eq. reflexivity.
Qed.
End ReadMore.

Lemma malformed_id_stops_before_any_call_witness :
  resourceMonitorSubscriptionDiagnosticSettingRead
    (scriptedEnv (fun _ => found) None (None, None)) (initialWorld malformedData)
  = (Val (Some (ErrIdSegments 1)), initialWorld malformedData).
Proof.
  destruct (malformed_id_stops_before_any_call
              (scriptedEnv (fun _ => found) None (None, None))
              (initialWorld malformedData)) as [H _].
  - vm_compute. discriminate.
  - exact H.
Defined.

Lemma read_without_properties_witness :
  rdAttrs (wData (snd (resourceMonitorSubscriptionDiagnosticSettingRead
                         (scriptedEnv (fun _ => found) None (None, None))
                         (initialWorld storedData))))
  = <["target_subscription_id" := AString "sub"]>
      (<["name" := AString "diag"]> (rdAttrs storedData)).
Proof.
  destruct (read_without_properties
              (scriptedEnv (fun _ => found) None (None, None))
              (initialWorld storedData)
              (NewDiagnosticSettingID "sub" "diag") (fst found) 1
              eq_refl eq_refl) as (_ & _ & H).
  - right. eexists. split; reflexivity.
  - exact H.
Defined.

Lemma read_writes_log_only_on_success_witness :
  rdAttrs (wData (snd (resourceMonitorSubscriptionDiagnosticSettingRead
                         (scriptedEnv (fun _ => serverError) None (None, None))
                         (initialWorld storedData)))) !! "log"
  = Some (ALogs sampleRawLogs).
Proof.
  rewrite (read_writes_log_only_on_success
             (scriptedEnv (fun _ => serverError) None (None, None))
             (initialWorld storedData)
             (ErrRetrieving "diag" "sub" "internal server error") eq_refl).
  vm_compute. reflexivity.
Defined.

Lemma read_copies_remote_properties_witness :
  let attrs :=
    rdAttrs (wData (snd (resourceMonitorSubscriptionDiagnosticSettingRead
                           (scriptedEnv (fun _ => foundWithProperties) None
                                        (None, None))
                           (initialWorld storedData)))) in
  attrs !! "log"
  = Some (ALogs (flattenMonitorSubscriptionDiagnosticLogs (Some sampleLogs))) /\
  attrs !! "log_analytics_workspace_id" = Some (AString "workspace") /\
  attrs !! "storage_account_id" = Some (AString "storage").
Proof.
  destruct (read_copies_remote_properties
              (scriptedEnv (fun _ => foundWithProperties) None (None, None))
              (initialWorld storedData)
              (NewDiagnosticSettingID "sub" "diag") (fst foundWithProperties) 1
              {| Id := Some "id"; Properties := Some remoteProperties |}
              remoteProperties eq_refl eq_refl eq_refl eq_refl eq_refl)
    as (_ & _ & _ & Hl & _ & Hw & Hs).
  cbv zeta. split; [exact Hl|]. split.
  - hnf in Hw. destruct Hw as (workspaceId & P & Hw).
    vm_compute in P. injection P as <-. exact Hw.
  - hnf in Hs. etransitivity; [exact Hs | vm_compute; reflexivity].
Defined.

(** ** More on create/update *)

Section CreateUpdateMore.
Context {R : Type} (env : Env R).

Lemma reaches_data (w w1 : World R) (logs : list SubscriptionLogSettings) :
  reachesDestinationCheck env w w1 logs -> wData w1 = wData w.
Proof.
  intros (Hpre & _ & _).
  destruct (rdIsNewResource (wData w)); [|now subst].
  destruct (checkNotPresent_spec env (configuredId (wData w)) w)
    as (r & w1' & E & Hd & _).
  rewrite E in Hpre. now injection Hpre as _ <-.
Qed.

Lemma createUpdate_reaches (w w1 : World R)
    (logs : list SubscriptionLogSettings) :
  reachesDestinationCheck env w w1 logs ->
  resourceMonitorSubscriptionDiagnosticSettingCreateUpdate env w
  = createAndRead env (wData w) (getString (wData w) "name")
      (getString (wData w) "target_subscription_id")
      (configuredId (wData w)) logs w1.
Proof.
  intros (Hpre & Hexp & A). rewrite createUpdate_unfold. cbv zeta.
  assert (E : (if rdIsNewResource (wData w)
               then checkNotPresent env (configuredId (wData w)) w
               else (Val None, w)) = (Val None, w1)).
  { destruct (rdIsNewResource (wData w)); congruence. }
  rewrite E, Hexp.
  destruct logs as [|v logs]; [discriminate|]. cbn [length Nat.eqb].
  now rewrite A.
Qed.

Lemma createAndRead_eq (d : ResourceData) (name subscriptionID : string)
    (id : DiagnosticSettingId) (logs : list SubscriptionLogSettings)
    (w : World R) :
  snd (withDestinations d logs) = true ->
  createAndRead env d name subscriptionID id logs w
  = let parameters :=
      {| Id := None; Properties := Some (fst (withDestinations d logs)) |} in
    let '(cuErr, r2) :=
      clientCreateOrUpdate (client env) id parameters (wRemote w) in
    let calls2 :=
      (wCalls w ++ [(wClock w, CallCreateOrUpdate id parameters)])%list in
    match cuErr with
    | Some e =>
        (Val (Some (ErrCreating name subscriptionID e)),
         {| wData := wData w; wRemote := r2; wCalls := calls2;
            wClock := wClock w |})
    | None =>
        let '((read, getErr), r3) := clientGet (client env) id r2 in
        let calls3 := (calls2 ++ [(wClock w, CallGet id)])%list in
        match getErr with
        | Some e =>
            (Val (Some (ErrRemote e)),
             {| wData := wData w; wRemote := r3; wCalls := calls3;
                wClock := wClock w |})
        | None =>
            match Model read with
            | None =>
                (Panic, {| wData := wData w; wRemote := r3; wCalls := calls3;
                           wClock := wClock w |})
            | Some _ =>
                resourceMonitorSubscriptionDiagnosticSettingRead env
                  {| wData := {| rdId := formatResourceId subscriptionID name;
                                 rdIsNewResource := rdIsNewResource (wData w);
                                 rdAttrs := rdAttrs (wData w);
                                 rdTimeoutDelete := rdTimeoutDelete (wData w) |};
                     wRemote := r3; wCalls := calls3; wClock := wClock w |}
            end
        end
    end.
Proof.
  intros V. unfold createAndRead.
  destruct (withDestinations d logs) as [properties valid].
  simpl in V. subst valid. cbn [negb fst].
  unfold client_CreateOrUpdate, client_Get, cannotReadIdGuard, deref, d_SetId,
    bind, getData, putData, logCall, remote, ret, panic. cbn.
  destruct (clientCreateOrUpdate _ _ _ _) as [[e|] r2]; [reflexivity|].
  cbn. destruct (clientGet _ _ _) as [[read [e|]] r3]; [reflexivity|].
  cbn. destruct (Model read); reflexivity.
Qed.

Lemma not_noDestination_valid (d : ResourceData)
    (logs : list SubscriptionLogSettings) :
  ~ noDestination d -> snd (withDestinations d logs) = true.
Proof.
  intros H. destruct (snd (withDestinations d logs)) eqn:V; [reflexivity|].
  apply withDestinations_valid in V. contradiction.
Qed.

(** X12: for a new resource, create/update first gets the configured ID.
    When that [Get] fails otherwise than with not-found, it returns the error
    of checking for presence; when it succeeds, or fails with not-found, and
    the response holds a model with an ID that is not empty, it returns the
    error that demands an import, with that ID. In both cases the [Get] is
    the only remote call and the resource data is unchanged. *)
Theorem new_resource_existence_check (w : World R)
    (existing : GetOperationResponse) (err : option remote_error) (r' : R) :
  rdIsNewResource (wData w) = true ->
  clientGet (client env) (configuredId (wData w)) (wRemote w)
    = ((existing, err), r') ->
  let id := configuredId (wData w) in
  let result := resourceMonitorSubscriptionDiagnosticSettingCreateUpdate env w in
  (forall e,
     err = Some e -> WasNotFound (HttpResponse existing) = false ->
     result = (Val (Some (ErrCheckingPresence (Name id) (SubscriptionId id) e)),
               afterGet env id w)) /\
  (forall existingId,
     err = None \/ WasNotFound (HttpResponse existing) = true ->
     existingModelId existing = Some existingId ->
     result = (Val (Some (ErrImportAsExists
                            "azurerm_monitor_subscription_diagnostic_setting"
                            existingId)),
               afterGet env id w)).
Proof.
  intros Hnew Hget id result. subst result.
  rewrite createUpdate_unfold. cbv zeta. rewrite Hnew. fold id.
  assert (E : checkNotPresent env id w
              = (match err with
                 | Some e =>
                     if negb (WasNotFound (HttpResponse existing))
                     then Val (Some (ErrCheckingPresence (Name id)
                                       (SubscriptionId id) e))
                     else match existingModelId existing with
                          | Some existingId =>
                              Val (Some (ErrImportAsExists
                                  "azurerm_monitor_subscription_diagnostic_setting"
                                  existingId))
                          | None => Val None
                          end
                 | None =>
                     match existingModelId existing with
                     | Some existingId =>
                         Val (Some (ErrImportAsExists
                             "azurerm_monitor_subscription_diagnostic_setting"
                             existingId))
                     | None => Val None
                     end
                 end, afterGet env id w)).
  { unfold checkNotPresent, client_Get, bind, logCall, remote, ret, afterGet.
    cbn. fold id in Hget. rewrite Hget. cbn.
    destruct err as [e|];
      [destruct (negb (WasNotFound (HttpResponse existing)))|];
      try destruct (existingModelId existing); reflexivity. }
  rewrite E. split.
  - intros e -> NF. rewrite NF. reflexivity.
  - intros existingId Hok Hid. rewrite Hid.
    destruct Hok as [-> | NF]; [reflexivity|].
    rewrite NF. destruct err; reflexivity.
Qed.

(** X13: once the destination check is passed, a failing [CreateOrUpdate]
    makes create/update return the creating error after that one call, and a
    failing follow-up [Get] makes it return the error of the [Get] as it is;
    in both cases the resource data, and so the resource ID, is unchanged. *)
Theorem failed_creation_leaves_data_untouched (w w1 : World R)
    (logs : list SubscriptionLogSettings) :
  reachesDestinationCheck env w w1 logs ->
  ~ noDestination (wData w) ->
  let d := wData w in
  let id := configuredId d in
  let parameters :=
    {| Id := None; Properties := Some (fst (withDestinations d logs)) |} in
  let result := resourceMonitorSubscriptionDiagnosticSettingCreateUpdate env w in
  let created := clientCreateOrUpdate (client env) id parameters (wRemote w1) in
  let read := clientGet (client env) id (snd created) in
  (forall e,
     fst created = Some e ->
     fst result = Val (Some (ErrCreating (getString d "name")
                               (getString d "target_subscription_id") e)) /\
     wData (snd result) = d /\
     callsSince w1 (snd result)
                [(wClock w1, CallCreateOrUpdate id parameters)]) /\
  (forall e,
     fst created = None -> snd (fst read) = Some e ->
     fst result = Val (Some (ErrRemote e)) /\
     wData (snd result) = d /\
     callsSince w1 (snd result)
                [(wClock w1, CallCreateOrUpdate id parameters);
                 (wClock w1, CallGet id)]).
Proof.
  intros Hreach Hdest d id parameters result created read.
  subst result. rewrite (createUpdate_reaches w w1 logs Hreach).
  rewrite createAndRead_eq by now apply not_noDestination_valid.
  pose proof (reaches_data w w1 logs Hreach) as Hd.
  cbv zeta. fold d id parameters. fold created.
  unfold callsSince.
  destruct created as [cuErr r2] eqn:C. cbn [fst snd] in *.
  split.
  - intros e ->. cbn. auto.
  - intros e -> Hr. subst read. cbn [snd] in Hr.
    destruct (clientGet (client env) id r2) as [[rd getErr] r3].
    cbn in Hr. subst getErr. cbn. rewrite <- app_assoc. auto.
Qed.

Lemma createUpdate_success_eq (w w1 : World R)
    (logs : list SubscriptionLogSettings) (r2 r3 : R)
    (read : GetOperationResponse)
    (model : SubscriptionDiagnosticSettingsResource) :
  reachesDestinationCheck env w w1 logs ->
  ~ noDestination (wData w) ->
  let d := wData w in
  let id := configuredId d in
  let parameters :=
    {| Id := None; Properties := Some (fst (withDestinations d logs)) |} in
  clientCreateOrUpdate (client env) id parameters (wRemote w1) = (None, r2) ->
  clientGet (client env) id r2 = ((read, None), r3) ->
  Model read = Some model ->
  resourceMonitorSubscriptionDiagnosticSettingCreateUpdate env w
  = resourceMonitorSubscriptionDiagnosticSettingRead env
      {| wData := {| rdId := formatResourceId
                               (getString d "target_subscription_id")
                               (getString d "name");
                     rdIsNewResource := rdIsNewResource d;
                     rdAttrs := rdAttrs d;
                     rdTimeoutDelete := rdTimeoutDelete d |};
         wRemote := r3;
         wCalls := (wCalls w1
                    ++ [(wClock w1, CallCreateOrUpdate id parameters);
                        (wClock w1, CallGet id)])%list;
         wClock := wClock w1 |}.
Proof.
  intros Hreach Hdest d id parameters Hcu Hget Hm.
  rewrite (createUpdate_reaches w w1 logs Hreach).
  rewrite createAndRead_eq by now apply not_noDestination_valid.
  pose proof (reaches_data w w1 logs Hreach) as Hd.
  cbv zeta. fold d id parameters. rewrite Hcu, Hget, Hm, Hd.
  now rewrite <- app_assoc.
Qed.

(** X14: when the subscription ID or the name contains '|', create/update
    gets as far as the remote call (for a new resource the check found no
    existing object, one log entry at least is enabled, a destination is
    set), the remote creation succeeds and the follow-up [Get] succeeds with
    a model in its response, then create/update has sent [CreateOrUpdate] and
    that [Get], stores the composite ID, and returns the error of the ID
    parser, which reports two segments more than there are separators in the
    two strings. Without a model in the response of the [Get] the function
    panics before it stores the ID, so the model is required. *)
Theorem created_then_unparsable_id (w w1 : World R)
    (logs : list SubscriptionLogSettings) (r2 r3 : R)
    (read : GetOperationResponse)
    (model : SubscriptionDiagnosticSettingsResource) :
  reachesDestinationCheck env w w1 logs ->
  ~ noDestination (wData w) ->
  let d := wData w in
  let id := configuredId d in
  let subscriptionID := getString d "target_subscription_id" in
  let name := getString d "name" in
  let parameters :=
    {| Id := None; Properties := Some (fst (withDestinations d logs)) |} in
  clientCreateOrUpdate (client env) id parameters (wRemote w1) = (None, r2) ->
  clientGet (client env) id r2 = ((read, None), r3) ->
  Model read = Some model ->
  strings.Contains subscriptionID "|" = true \/
  strings.Contains name "|" = true ->
  let result := resourceMonitorSubscriptionDiagnosticSettingCreateUpdate env w in
  fst result
  = Val (Some (ErrIdSegments
                 (2 + strings.Count subscriptionID "|"
                  + strings.Count name "|"))) /\
  rdId (wData (snd result)) = formatResourceId subscriptionID name /\
  callsSince w1 (snd result)
             [(wClock w1, CallCreateOrUpdate id parameters);
              (wClock w1, CallGet id)].
Proof.
  intros Hreach Hdest d id subscriptionID name parameters Hcu Hget Hm Hsep result.
  subst result.
  rewrite (createUpdate_success_eq w w1 logs r2 r3 read model
             Hreach Hdest Hcu Hget Hm).
  fold d subscriptionID name id parameters.
  assert (Hc : strings.Count (formatResourceId subscriptionID name) "|"
               = S (strings.Count subscriptionID "|" + strings.Count name "|")).
  { unfold formatResourceId.
    change ("|" ++ name) with (String "|" name).
    rewrite Count_app. simpl. lia. }
  assert (Hne : strings.Count (formatResourceId subscriptionID name) "|" <> 1).
  { rewrite Hc. intros E.
    destruct Hsep as [Hsep|Hsep];
      [destruct (Contains_false "|" subscriptionID) as [_ Hz]
      |destruct (Contains_false "|" name) as [_ Hz]];
      rewrite Hz in Hsep by lia; discriminate. }
  rewrite read_malformed_eq by exact Hne.
  cbn [fst snd wData rdId]. rewrite Hc. unfold callsSince. auto.
Qed.

(** X15: when neither the subscription ID nor the name contains '|' and
    the creation and the follow-up [Get] succeed, create/update does not
    panic and makes exactly three remote calls from the destination check on:
    the [CreateOrUpdate], the follow-up [Get] and the [Get] of the read
    function, all three on the configured ID. *)
Theorem create_then_read_same_object (w w1 : World R)
    (logs : list SubscriptionLogSettings) (r2 r3 : R)
    (read : GetOperationResponse)
    (model : SubscriptionDiagnosticSettingsResource) :
  reachesDestinationCheck env w w1 logs ->
  ~ noDestination (wData w) ->
  let d := wData w in
  let id := configuredId d in
  let parameters :=
    {| Id := None; Properties := Some (fst (withDestinations d logs)) |} in
  clientCreateOrUpdate (client env) id parameters (wRemote w1) = (None, r2) ->
  clientGet (client env) id r2 = ((read, None), r3) ->
  Model read = Some model ->
  strings.Contains (getString d "target_subscription_id") "|" = false ->
  strings.Contains (getString d "name") "|" = false ->
  let result := resourceMonitorSubscriptionDiagnosticSettingCreateUpdate env w in
  (exists r, fst result = Val r) /\
  callsSince w1 (snd result)
             [(wClock w1, CallCreateOrUpdate id parameters);
              (wClock w1, CallGet id);
              (wClock w1, CallGet id)].
Proof.
  intros Hreach Hdest d id parameters Hcu Hget Hm Hs Hn result.
  subst result.
  rewrite (createUpdate_success_eq w w1 logs r2 r3 read model
             Hreach Hdest Hcu Hget Hm).
  fold d id parameters.
  apply Contains_false in Hs, Hn.
  match goal with
  | |- context [resourceMonitorSubscriptionDiagnosticSettingRead env ?w0] =>
      destruct (read_calls_exact env w0 id (parse_formatted _ _ Hs Hn))
        as (Hval & Hcalls & _)
  end.
  split; [exact Hval|].
  unfold callsSince in *. cbn [wCalls wClock] in Hcalls.
  rewrite Hcalls, <- app_assoc. reflexivity.
Qed.

(** X16: the first remote call after the destination check is the
    [CreateOrUpdate]; its parameters hold the expanded logs, and the event
    hub name only when the authorization rule ID is set: an event hub name
    without a rule ID is not sent. *)
Theorem event_hub_name_sent_only_with_rule (w w1 : World R)
    (logs : list SubscriptionLogSettings) :
  reachesDestinationCheck env w w1 logs ->
  ~ noDestination (wData w) ->
  let d := wData w in
  let result := resourceMonitorSubscriptionDiagnosticSettingCreateUpdate env w in
  exists properties calls,
    callsSince w1 (snd result)
      ((wClock w1,
        CallCreateOrUpdate (configuredId d)
          {| Id := None; Properties := Some properties |}) :: calls) /\
    Logs properties = Some logs /\
    EventHubName properties
    = (if String.eqb (getString d "eventhub_authorization_rule_id") ""
       then None else Some (getString d "eventhub_name")).
Proof.
  intros Hreach Hdest d result. subst result.
  rewrite (createUpdate_reaches w w1 logs Hreach).
  destruct (createAndRead_sends env d (getString d "name")
              (getString d "target_subscription_id") (configuredId d) logs w1
              (not_noDestination_valid d logs Hdest)) as (calls & Hc).
  exists (fst (withDestinations d logs)), calls.
  split; [exact Hc|].
  unfold withDestinations.
  destruct (String.eqb (getString d "eventhub_authorization_rule_id") "");
  destruct (String.eqb (getString d "log_analytics_workspace_id") "");
  destruct (String.eqb (getString d "storage_account_id") "");
    cbn; auto.
Qed.
End CreateUpdateMore.

Lemma new_resource_existence_check_witness :
  fst (resourceMonitorSubscriptionDiagnosticSettingCreateUpdate
         (scriptedEnv (fun _ => found) None (None, None))
         (initialWorld newData))
  = Val (Some (ErrImportAsExists
                 "azurerm_monitor_subscription_diagnostic_setting" "id")).
Proof.
  destruct (new_resource_existence_check
              (scriptedEnv (fun _ => found) None (None, None))
              (initialWorld newData) (fst found) None 1 eq_refl eq_refl)
    as [_ H].
  rewrite (H "id" (or_introl eq_refl) eq_refl). reflexivity.
Defined.

Lemma sample_reaches (gets : nat -> GetOperationResponse * option remote_error)
    (cu : option remote_error) :
  reachesDestinationCheck (scriptedEnv gets cu (None, None))
    (initialWorld sampleData) (initialWorld sampleData) sampleLogs.
Proof.
  split; [reflexivity|]. split; [vm_compute; reflexivity | reflexivity].
Qed.

Lemma sample_has_destination : ~ noDestination sampleData.
Proof. intros (_ & H & _). vm_compute in H. discriminate. Qed.

Lemma failed_creation_leaves_data_untouched_witness :
  let result :=
    resourceMonitorSubscriptionDiagnosticSettingCreateUpdate
      (scriptedEnv (fun _ => found) (Some "conflict") (None, None))
      (initialWorld sampleData) in
  fst result = Val (Some (ErrCreating "diag" "sub" "conflict")) /\
  wData (snd result) = sampleData.
Proof.
  destruct (failed_creation_leaves_data_untouched
              (scriptedEnv (fun _ => found) (Some "conflict") (None, None))
              (initialWorld sampleData) (initialWorld sampleData) sampleLogs
              (sample_reaches _ _) sample_has_destination) as [H _].
  destruct (H "conflict" eq_refl) as (H1 & H2 & _).
  split; [|exact H2].
  rewrite H1. vm_compute. reflexivity.
Defined.

Lemma separator_reaches :
  reachesDestinationCheck (scriptedEnv (fun _ => found) None (None, None))
    (initialWorld separatorData) (initialWorld separatorData) sampleLogs.
Proof.
  split; [reflexivity|]. split; [vm_compute; reflexivity | reflexivity].
Qed.

Lemma separator_has_destination : ~ noDestination separatorData.
Proof. intros (_ & _ & H). vm_compute in H. discriminate. Qed.

Lemma created_then_unparsable_id_witness :
  let result :=
    resourceMonitorSubscriptionDiagnosticSettingCreateUpdate
      (scriptedEnv (fun _ => found) None (None, None))
      (initialWorld separatorData) in
  fst result = Val (Some (ErrIdSegments 3)) /\
  rdId (wData (snd result)) = "sub|di|ag".
Proof.
  destruct (created_then_unparsable_id
              (scriptedEnv (fun _ => found) None (None, None))
              (initialWorld separatorData) (initialWorld separatorData)
              sampleLogs 0 1 (fst found)
              {| Id := Some "id"; Properties := None |}
              separator_reaches separator_has_destination
              eq_refl eq_refl eq_refl (or_intror eq_refl)) as (H1 & H2 & _).
  split; [rewrite H1 | rewrite H2]; vm_compute; reflexivity.
Defined.

Lemma create_then_read_same_object_witness :
  callsSince (initialWorld sampleData)
    (snd (resourceMonitorSubscriptionDiagnosticSettingCreateUpdate
            (scriptedEnv (fun _ => found) None (None, None))
            (initialWorld sampleData)))
    [(0%Z, CallCreateOrUpdate (NewDiagnosticSettingID "sub" "diag")
             sampleParameters);
     (0%Z, CallGet (NewDiagnosticSettingID "sub" "diag"));
     (0%Z, CallGet (NewDiagnosticSettingID "sub" "diag"))].
Proof.
  destruct (create_then_read_same_object
              (scriptedEnv (fun _ => found) None (None, None))
              (initialWorld sampleData) (initialWorld sampleData)
              sampleLogs 0 1 (fst found)
              {| Id := Some "id"; Properties := None |}
              (sample_reaches _ _) sample_has_destination
              eq_refl eq_refl eq_refl eq_refl eq_refl) as (_ & H).
  exact H.
Defined.

Lemma event_hub_name_sent_only_with_rule_witness :
  exists properties calls,
    callsSince (initialWorld separatorData)
      (snd (resourceMonitorSubscriptionDiagnosticSettingCreateUpdate
              (scriptedEnv (fun _ => found) None (None, None))
              (initialWorld separatorData)))
      ((0%Z, CallCreateOrUpdate (NewDiagnosticSettingID "sub" "di|ag")
               {| Id := None; Properties := Some properties |}) :: calls) /\
    EventHubName properties = None.
Proof.
  destruct (event_hub_name_sent_only_with_rule
              (scriptedEnv (fun _ => found) None (None, None))
              (initialWorld separatorData) (initialWorld separatorData)
              sampleLogs separator_reaches separator_has_destination)
    as (properties & calls & Hc & _ & He).
  exists properties, calls. split; [exact Hc|].
  rewrite He. vm_compute. reflexivity.
Defined.

(** ** The failing delete, and the existence check *)

Section DeleteMore.
Context {R : Type} (env : Env R).

(** X17: when the remote [Delete] fails otherwise than with not-found, the
    delete function returns the deleting error at once: the [Delete] is the
    only remote call, no poll follows, no time passes and the resource data
    is unchanged. *)
Theorem failed_delete_does_not_poll (w : World R) (id : DiagnosticSettingId)
    (resp : option http_Response) (e : remote_error) (r1 : R) :
  ParseMonitorSubscriptionDiagnosticId (rdId (wData w)) = Ok id ->
  clientDelete (client env) id (wRemote w) = ((resp, Some e), r1) ->
  WasNotFound resp = false ->
  resourceMonitorSubscriptionDiagnosticSettingDelete env w
  = (Val (Some (ErrDeleting (Name id) (SubscriptionId id) e)),
     afterDelete env id w).
Proof.
  intros Hid Hdel Hnf.
  unfold resourceMonitorSubscriptionDiagnosticSettingDelete.
  unfold bind at 1, getData at 1. rewrite Hid.
  unfold client_Delete, afterDelete, bind, logCall, remote, ret.
  cbn [wRemote wData wCalls wClock]. rewrite Hdel. cbv zeta. cbn [snd].
  now rewrite Hnf.
Qed.

(** X18: the existence check of the acceptance tests never panics. On an ID
    that does not parse it returns the parse error without a remote call;
    otherwise it makes one [Get], returns its error wrapped, or else reports
    existence exactly when the response has a model whose ID is not nil. *)
Theorem exists_check_never_panics (stateID : string) (w : World R) :
  let result := MonitorSubscriptionDiagnosticSettingResource_Exists env stateID w in
  match ParseMonitorSubscriptionDiagnosticId stateID with
  | Err err => result = (Val (None, Some (ExistsParseError err)), w)
  | Ok id =>
      snd result = afterGet env id w /\
      fst result
      = Val (match fst (clientGet (client env) id (wRemote w)) with
             | (_, Some e) => (None, Some (ExistsReadingError id e))
             | (resp, None) =>
                 (Some (match Model resp with
                        | Some model => negb (isNil (Id model))
                        | None => false
                        end), None)
             end)
  end.
Proof.
  intros result. subst result.
  unfold MonitorSubscriptionDiagnosticSettingResource_Exists.
  destruct (ParseMonitorSubscriptionDiagnosticId stateID) as [id|err];
    [|reflexivity].
  unfold client_Get, afterGet, deref, bind, logCall, remote, ret. cbn.
  destruct (clientGet (client env) id (wRemote w)) as [[resp [e|]] r'];
    cbn; [auto|].
  destruct (Model resp); cbn; auto.
Qed.
End DeleteMore.

Lemma failed_delete_does_not_poll_witness :
  resourceMonitorSubscriptionDiagnosticSettingDelete
    (scriptedEnv (fun _ => found) None
       (Some {| StatusCode := 500 |}, Some "internal server error"))
    (initialWorld storedData)
  = (Val (Some (ErrDeleting "diag" "sub" "internal server error")),
     {| wData := storedData; wRemote := 0;
        wCalls := [(0%Z, CallDelete (NewDiagnosticSettingID "sub" "diag"))];
        wClock := 0 |}).
Proof.
  rewrite (failed_delete_does_not_poll
             (scriptedEnv (fun _ => found) None
                (Some {| StatusCode := 500 |}, Some "internal server error"))
             (initialWorld storedData)
             (NewDiagnosticSettingID "sub" "diag")
             (Some {| StatusCode := 500 |}) "internal server error" 0
             eq_refl eq_refl eq_refl).
  reflexivity.
Defined.

(** ** More on the watchlists client *)

Module WatchlistMore.
Import securityinsight securityinsightPaging WatchlistVocabulary.

Section WithAutorestMore.
Context (ar : Autorest).

Ltac run_operation :=
  unfold CreateOrUpdatePreparer, CreateOrUpdateResponder,
    DeletePreparer, DeleteResponder, GetPreparer, GetResponder,
    ListPreparer, ListResponder, prepare, send, emit, bind, ret;
  cbn [fst snd];
  repeat (case_match; cbn [fst snd] in *; simplify_eq; cbn [fst snd]).

Ltac settle_events :=
  first
    [ left; reflexivity
    | right; eexists; left; split; [reflexivity | congruence]
    | right; eexists; right; split;
      [rewrite <- app_assoc; reflexivity | assumption] ].

(** X19: each of [CreateOrUpdate], [Delete] and [Get] prepares one request
    at most and sends one request at most, and what it sends is the request
    it prepared; when the preparation fails nothing is sent. *)
Theorem operations_send_one_request_at_most (client : WatchlistsClient)
    (resourceGroupName workspaceName watchlistAlias : string)
    (watchlist : Watchlist) (evs : list Event) :
  oneRequestAtMost ar evs
    (snd (CreateOrUpdate ar client resourceGroupName workspaceName
            watchlistAlias watchlist evs)) /\
  oneRequestAtMost ar evs
    (snd (Delete ar client resourceGroupName workspaceName watchlistAlias evs)) /\
  oneRequestAtMost ar evs
    (snd (Get ar client resourceGroupName workspaceName watchlistAlias evs)).
Proof.
  unfold oneRequestAtMost, CreateOrUpdate, Delete, Get.
  repeat split; run_operation; settle_events.
Qed.

Lemma app_cons_inv {A} (l : list A) (x y : A) (t u : list A) :
  (l ++ x :: t)%list = (l ++ y :: u)%list -> x = y.
Proof. intros H. apply app_inv_head in H. congruence. Qed.

Lemma app_not_self {A} (l : list A) (x : A) (t : list A) :
  l <> (l ++ x :: t)%list.
Proof.
  intros H. rewrite <- (app_nil_r l) in H at 1.
  apply app_inv_head in H. discriminate.
Qed.

Ltac first_request H :=
  first
    [ exfalso; exact (app_not_self _ _ _ H)
    | rewrite <- ?app_assoc in H; cbn [app] in H;
      apply app_cons_inv in H; injection H as <-;
      unfold addressed, itemPathParameters; cbn;
      repeat split; auto 10 ].

(** X20: the request that an operation prepares goes to the base URI of the
    client, with the API version 2022-01-01-preview and the encoded
    subscription ID, resource group name and workspace name. [CreateOrUpdate]
    uses PUT with the watchlist as body, [Delete] uses DELETE, [Get] and
    [List] use GET, the last three without body; [List] passes the skip token
    if and only if it is not empty. *)
Theorem requests_of_the_operations (client : WatchlistsClient)
    (resourceGroupName workspaceName watchlistAlias skipToken : string)
    (watchlist : Watchlist) (evs : list Event) (req : Request)
    (rest : list Event) :
  (snd (CreateOrUpdate ar client resourceGroupName workspaceName
          watchlistAlias watchlist evs) = (evs ++ Prepared req :: rest)%list ->
   addressed ar client resourceGroupName workspaceName req /\
   Method req = "PUT" /\ Body req = Some watchlist /\
   In ("watchlistAlias", Encode ar "path" watchlistAlias) (PathParameters req)) /\
  (snd (Delete ar client resourceGroupName workspaceName watchlistAlias evs)
   = (evs ++ Prepared req :: rest)%list ->
   addressed ar client resourceGroupName workspaceName req /\
   Method req = "DELETE" /\ Body req = None /\
   In ("watchlistAlias", Encode ar "path" watchlistAlias) (PathParameters req)) /\
  (snd (Get ar client resourceGroupName workspaceName watchlistAlias evs)
   = (evs ++ Prepared req :: rest)%list ->
   addressed ar client resourceGroupName workspaceName req /\
   Method req = "GET" /\ Body req = None /\
   In ("watchlistAlias", Encode ar "path" watchlistAlias) (PathParameters req)) /\
  (snd (List ar client resourceGroupName workspaceName skipToken evs)
   = (evs ++ Prepared req :: rest)%list ->
   addressed ar client resourceGroupName workspaceName req /\
   Method req = "GET" /\ Body req = None /\
   (In ("$skipToken", Encode ar "query" skipToken) (QueryParameters req)
    <-> skipToken <> "")).
Proof.
  unfold CreateOrUpdate, Delete, Get, List.
  split; [|split; [|split]]; run_operation; intros Hev;
    first_request Hev;
    match goal with
    | Hlt : (0 <? String.length ?t)%nat = _ |- _ =>
        destruct t; cbn in Hlt; try discriminate Hlt;
        first [ intros _; discriminate
              | intros [E|[]]; discriminate E
              | intros Hn; exfalso; apply Hn; reflexivity ]
    end.
Qed.
Lemma app_two_inv {A} (l : list A) (x y x' y' : A) :
  (l ++ [x; y])%list = (l ++ [x'; y'])%list -> x = x' /\ y = y'.
Proof. intros H. apply app_inv_head in H. split; congruence. Qed.

Lemma app_one_two {A} (l : list A) (x x' y' : A) :
  (l ++ [x])%list <> (l ++ [x'; y'])%list.
Proof. intros H. apply app_inv_head in H. discriminate. Qed.

Ltac sent_request H :=
  first
    [ exfalso; exact (app_not_self _ _ _ H)
    | exfalso; exact (app_one_two _ _ _ _ H)
    | rewrite <- ?app_assoc in H; cbn [app] in H;
      apply app_two_inv in H; destruct H as [_ H]; injection H as <-;
      eexists _, _; split; [reflexivity|]; cbn;
      match goal with
      | Hs : Send ar _ = _ |- _ => rewrite Hs
      end; cbn; auto ].

(** X21: whenever [CreateOrUpdate], [Delete] or [Get] has sent its request,
    the result it returns holds the response that the sender returned,
    whether the operation succeeds or fails, and an error it returns is a
    detailed error with that same response. *)
Theorem result_carries_the_response (client : WatchlistsClient)
    (resourceGroupName workspaceName watchlistAlias : string)
    (watchlist : Watchlist) (evs : list Event) (req : Request) :
  let createOrUpdate :=
    CreateOrUpdate ar client resourceGroupName workspaceName watchlistAlias
                   watchlist evs in
  let delete :=
    Delete ar client resourceGroupName workspaceName watchlistAlias evs in
  let get := Get ar client resourceGroupName workspaceName watchlistAlias evs in
  let resp := fst (Send ar req) in
  (snd createOrUpdate = (evs ++ [Prepared req; Sent req])%list ->
   exists result err,
     fst createOrUpdate = Val (result, err) /\
     Response result = resp /\ carries resp err) /\
  (snd delete = (evs ++ [Prepared req; Sent req])%list ->
   exists result err,
     fst delete = Val (result, err) /\ result = resp /\ carries resp err) /\
  (snd get = (evs ++ [Prepared req; Sent req])%list ->
   exists result err,
     fst get = Val (result, err) /\
     Response result = resp /\ carries resp err).
Proof.
  unfold CreateOrUpdate, Delete, Get.
  cbv zeta. split; [|split]; run_operation; intros Hev; sent_request Hev.
Qed.

(** X22: [listNextResults] returns the empty result and no error, without
    any request, when there is no request for a next page; it returns the
    preparing error, without any request, when the preparation fails; and
    otherwise it sends that one request and returns a result that holds the
    response. *)
Theorem next_results_without_next_page
    (watchlistListPreparer : WatchlistList -> option Request * option string)
    (client : WatchlistsClient) (lastResults : WatchlistList)
    (evs : list Event) :
  let next :=
    listNextResults ar watchlistListPreparer client lastResults evs in
  match watchlistListPreparer lastResults with
  | (_, Some e) =>
      next = (Val (zeroWatchlistList,
                   Some (DetailedError e pkg "listNextResults" None
                           "Failure preparing next results request")), evs)
  | (None, None) => next = (Val (zeroWatchlistList, None), evs)
  | (Some req, None) =>
      snd next = (evs ++ [Prepared req; Sent req])%list /\
      exists result err,
        fst next = Val (result, err) /\
        ListResponse result = fst (Send ar req) /\
        carries (fst (Send ar req)) err
  end.
Proof.
  unfold listNextResults.
  destruct (watchlistListPreparer lastResults) as [[req|] [e|]];
    try reflexivity.
  unfold ListResponder, send, emit, bind, ret. cbn.
  destruct (Send ar req) as [resp [e|]]; cbn.
  - rewrite <- app_assoc. split; [reflexivity|].
    eexists _, _. split; [reflexivity|]. cbn. auto.
  - destruct (RespondWatchlistList ar resp [StatusOK]) as [page [e|]]; cbn;
      rewrite <- app_assoc; (split; [reflexivity|]);
      eexists _, _; (split; [reflexivity|]); cbn; auto.
Qed.
End WithAutorestMore.

Lemma requests_of_the_operations_witness :
  addressed okAutorest sampleClient "group" "workspace" sampleGetRequest /\
  Method sampleGetRequest = "GET".
Proof.
  destruct (requests_of_the_operations okAutorest sampleClient
              "group" "workspace" "alias" "" zeroWatchlist []
              sampleGetRequest [Sent sampleGetRequest]) as (_ & _ & H & _).
  destruct H as (H1 & H2 & _); [reflexivity|]. split; assumption.
Defined.

Lemma result_carries_the_response_witness :
  exists result err,
    fst (Get okAutorest sampleClient "group" "workspace" "alias" [])
    = Val (result, err) /\
    Response result = Some {| StatusCode := 200 |}.
Proof.
  destruct (result_carries_the_response okAutorest sampleClient
              "group" "workspace" "alias" zeroWatchlist []
              sampleGetRequest) as (_ & _ & H).
  destruct H as (result & err & H1 & H2 & _); [reflexivity|].
  exists result, err. split; assumption.
Defined.

End WatchlistMore.
